(** * mk_win_dist_cmake.py: the Windows distribution generator of Z3

    A shallow embedding of [scripts/mk_win_dist_cmake.py].  The script is a
    sequence of global-reading procedures with filesystem and process
    effects; here every procedure is a computation in a state-and-exception
    monad [M] over an explicit world (filesystem, working directory, log of
    effects), the module globals set by [parse_options] are a read-only
    record [Config], and everything the script asks of the outside (the
    command shell, git, the process environment) is a record [Env] of
    oracles.  Console output ([print], [sys.stdout.flush]) is not part of
    the model. *)

From stdpp Require Import gmap strings list fin_maps.
From Stdlib Require Import ZArith Ascii String Bool Lia.

Open Scope string_scope.

(** ** Strings, as Python's [str] operations use them *)

Module Str.

Definition nl : ascii := "010"%char.
Definition cr : ascii := "013"%char.
Definition dquote : string := String "034"%char "".
Definition newline : string := String nl "".

(** [needle in hay] *)
Fixpoint contains (needle hay : string) : bool :=
  String.prefix needle hay ||
  match hay with
  | EmptyString => false
  | String _ hay' => contains needle hay'
  end.

(** [s.rstrip('\r\n')]: drop every trailing CR or LF. *)
Fixpoint rstrip_crlf (s : string) : string :=
  match s with
  | EmptyString => EmptyString
  | String c s' =>
      match rstrip_crlf s' with
      | EmptyString =>
          if (Ascii.eqb c cr || Ascii.eqb c nl)%bool then EmptyString
          else String c EmptyString
      | r => String c r
      end
  end.

(** [s.split(sep)] for a one-character separator: every occurrence splits,
    empty fields are kept, and the result is never empty. *)
Fixpoint split (sep : ascii) (s : string) : list string :=
  match s with
  | EmptyString => [EmptyString]
  | String c s' =>
      if Ascii.eqb c sep then EmptyString :: split sep s'
      else match split sep s' with
           | [] => [String c EmptyString]
           | w :: ws => String c w :: ws
           end
  end.

Definition lower_ascii (c : ascii) : ascii :=
  let n := nat_of_ascii c in
  if (65 <=? n)%nat && (n <=? 90)%nat then ascii_of_nat (n + 32) else c.

Fixpoint lower (s : string) : string :=
  match s with
  | EmptyString => EmptyString
  | String c s' => String (lower_ascii c) (lower s')
  end.

Fixpoint last_char (s : string) : option ascii :=
  match s with
  | EmptyString => None
  | String c EmptyString => Some c
  | String _ s' => last_char s'
  end.

(** [''.join(l)] *)
Definition join (l : list string) : string := String.concat "" l.

End Str.

(** ** Paths ([ntpath]) *)

Module Path.

Definition sep : string := "\".

Definition is_sep (c : ascii) : bool :=
  (Ascii.eqb c "\"%char || Ascii.eqb c "/"%char)%bool.

(** [ntpath.splitdrive] for paths with a drive letter: the drive is the
    first two characters when the second is a colon.  (UNC prefixes are not
    told apart from a path that starts with two separators.) *)
Definition splitdrive (p : string) : string * string :=
  match p with
  | String c (String d rest) =>
      if Ascii.eqb d ":"%char then (String c (String d ""), rest) else ("", p)
  | _ => ("", p)
  end.

(** The path starts with a separator. *)
Definition rooted (p : string) : bool :=
  match p with
  | String c _ => is_sep c
  | EmptyString => false
  end.

(** A component with neither a drive nor a leading separator, as
    [os.listdir] and [os.walk] give the names in a directory. *)
Definition relative (p : string) : bool :=
  negb (rooted p) && String.eqb (fst (splitdrive p)) "".

(** [os.path.join(a, b)] ([ntpath.join] with two components): a rooted [b]
    replaces the path of [a] and keeps the drive of [a] unless it has its
    own; a [b] on another drive replaces [a] altogether; otherwise [b] is
    put after [a], with a separator between the two unless the path of [a]
    is empty or already ends in one. *)
Definition join (a b : string) : string :=
  let '(da, pa) := splitdrive a in
  let '(db, pb) := splitdrive b in
  if rooted pb then
    (if String.eqb db "" then da else db) ++ pb
  else if negb (String.eqb db "") && negb (String.eqb (Str.lower db) (Str.lower da)) then
    db ++ pb
  else
    let drive := if String.eqb db "" then da else db in
    let head := match Str.last_char pa with
                | None => pa
                | Some c => if is_sep c then pa else pa ++ sep
                end in
    drive ++ head ++ pb.

(** The part after the last separator ([os.path.basename]). *)
Fixpoint basename (p : string) : string :=
  match p with
  | EmptyString => EmptyString
  | String c p' =>
      if is_sep c then basename p'
      else if existsb is_sep (list_ascii_of_string p') then basename p'
      else p
  end.

Fixpoint has_sep (p : string) : bool :=
  match p with
  | EmptyString => false
  | String c p' => is_sep c || has_sep p'
  end.

(** The part before the last separator: [os.path.dirname], but for the
    separator that it keeps at a root ([\b] gives the empty path here, and
    [C:\b] gives [C:]). *)
Fixpoint dirname (p : string) : string :=
  match p with
  | EmptyString => EmptyString
  | String c p' => if has_sep p' then String c (dirname p') else EmptyString
  end.

(** [os.path.normcase] on Windows: lower case, [/] turned into [\]. *)
Fixpoint normcase (p : string) : string :=
  match p with
  | EmptyString => EmptyString
  | String c p' =>
      String (if Ascii.eqb c "/"%char then "\"%char else Str.lower_ascii c) (normcase p')
  end.

End Path.

(** ** Shell-style patterns ([fnmatch]) *)

Module Glob.

(** [fnmatch.fnmatchcase]: [*] matches any run of characters, [?] any one
    character, every other character itself (the script's only pattern,
    [*.dll], has no bracket expression). *)
Fixpoint matchcase (pat : string) : string -> bool :=
  match pat with
  | EmptyString => fun s => match s with EmptyString => true | _ => false end
  | String p pat' =>
      if Ascii.eqb p "*"%char then
        fix star (s : string) : bool :=
          matchcase pat' s ||
          match s with
          | EmptyString => false
          | String _ s' => star s'
          end
      else if Ascii.eqb p "?"%char then
        fun s => match s with
                 | EmptyString => false
                 | String _ s' => matchcase pat' s'
                 end
      else
        fun s => match s with
                 | EmptyString => false
                 | String c s' => Ascii.eqb c p && matchcase pat' s'
                 end
  end.

(** [fnmatch.fnmatch(name, pat)]: both sides go through [os.path.normcase]
    first (the script runs on Windows only, see [main]). *)
Definition fnmatch (name pat : string) : bool :=
  matchcase (Path.normcase pat) (Path.normcase name).

End Glob.

(** ** Regular expressions ([re]), by Brzozowski derivatives *)

Module Re.

Inductive regex : Type :=
| Empty                      (* matches nothing *)
| Eps                        (* matches the empty string *)
| Chr (c : ascii)
| Dot                        (* [.]: any character but a newline *)
| Seq (r1 r2 : regex)
| Alt (r1 r2 : regex)
| Star (r : regex).

Fixpoint nullable (r : regex) : bool :=
  match r with
  | Empty => false
  | Eps => true
  | Chr _ => false
  | Dot => false
  | Seq r1 r2 => nullable r1 && nullable r2
  | Alt r1 r2 => nullable r1 || nullable r2
  | Star _ => true
  end.

Fixpoint deriv (a : ascii) (r : regex) : regex :=
  match r with
  | Empty => Empty
  | Eps => Empty
  | Chr c => if Ascii.eqb a c then Eps else Empty
  | Dot => if Ascii.eqb a Str.nl then Empty else Eps
  | Seq r1 r2 =>
      if nullable r1 then Alt (Seq (deriv a r1) r2) (deriv a r2)
      else Seq (deriv a r1) r2
  | Alt r1 r2 => Alt (deriv a r1) (deriv a r2)
  | Star r1 => Seq (deriv a r1) (Star r1)
  end.

(** [pat.match(s)] is truthy when some prefix of [s] is in the language of
    [pat] (matching is anchored at the start only). *)
Fixpoint rmatch (r : regex) (s : string) : bool :=
  nullable r ||
  match s with
  | EmptyString => false
  | String a s' => rmatch (deriv a r) s'
  end.

(** A literal followed by the rest of the pattern. *)
Fixpoint lit (s : string) (k : regex) : regex :=
  match s with
  | EmptyString => k
  | String c s' => Seq (Chr c) (lit s' k)
  end.

End Re.

(** ** The world the script runs in *)

Inductive node : Type :=
| NDir
| NFile (content : string).

(** The exceptions the script raises or meets. *)
Inductive exn : Type :=
| MKException (msg : string)
| KeyError (key : string)
| OSError (what : string)
| NameError (name : string)
| AttributeError (name : string).

(** The five per-architecture procedures of the pipeline. *)
Inductive stage : Type := Configure | Install | License | Runtime | Archive.

Inductive compression : Type := ZIP_STORED | ZIP_DEFLATED.

(** Effects, in the order they happen. *)
Inductive event : Type :=
| EvMakedirs (d : string)
| EvOpen (path : string)                      (* open(path, 'w') *)
| EvWrite (path data : string)                (* f.write(data) *)
| EvCall (script text : string)               (* subprocess.call(script, shell=True) *)
| EvPopen (cmd : list string)                 (* a process started from an argument list *)
| EvChdir (d : string)
| EvCopy (src dst : string)                   (* shutil.copy(src, dst) *)
| EvZipOpen (path : string) (c : compression) (* zipfile.ZipFile(path, 'w', c) *)
| EvZipWrite (archive entry : string).        (* zipout.write(entry) *)

Record world : Type := World {
  fs : gmap string node;        (* path, as the script spells it, to what is there *)
  cwd : string;                 (* "" is the directory the script was started in *)
  trace : list event;
  calls : list (stage * string) (* ghost: which procedure was entered for which architecture *)
}.

(** What the outside answers. *)
Record Env : Type := {
  os_name : string;
  environ : string -> option string;
  (** a shell session over a script text: [None] when the call itself
      raises, else the exit status and the filesystem the session leaves *)
  shell : string -> gmap string node -> option (Z * gmap string node);
  (** a process started from an argument list: [None] when it cannot be
      started, else what it prints *)
  proc : list string -> option string
}.

(** The module globals after [parse_options]. *)
Record Config : Type := {
  ARCHS : list (string * string);
  FORCE_MK : bool;
  ASSEMBLY_VERSION : option string;
  DOTNET_CORE_ENABLED : bool;
  JAVA_ENABLED : bool;
  ZIP_BUILD_OUTPUTS : bool;
  GIT_HASH : bool;
  PYTHON_ENABLED : bool;
  X86ONLY : bool;
  X64ONLY : bool;
  ARM64ONLY : bool
}.

Definition DIST_DIR : string := "dist".

(** ** The monad: state passing with exceptions *)

Inductive result (A : Type) : Type :=
| Ok (a : A) (w : world)
| Raise (e : exn) (w : world).
Arguments Ok {A} a w.
Arguments Raise {A} e w.

Definition M (A : Type) : Type := world -> result A.

#[global] Instance M_ret : MRet M := fun A a w => Ok a w.
#[global] Instance M_bind : MBind M := fun A B f m w =>
  match m w with
  | Ok a w' => f a w'
  | Raise e w' => Raise e w'
  end.

Definition raise {A : Type} (e : exn) : M A := fun w => Raise e w.

(** [try: m  except: h] (a bare [except] catches everything). *)
Definition try_except {A : Type} (m : M A) (h : exn -> M A) : M A := fun w =>
  match m w with
  | Ok a w' => Ok a w'
  | Raise e w' => h e w'
  end.

Definition get_world : M world := fun w => Ok w w.
Definition log (ev : event) : M unit := fun w =>
  Ok tt (World (fs w) (cwd w) (trace w ++ [ev]) (calls w)).
Definition set_fs (f : gmap string node) : M unit := fun w =>
  Ok tt (World f (cwd w) (trace w) (calls w)).
Definition set_cwd (d : string) : M unit := fun w =>
  Ok tt (World (fs w) d (trace w) (calls w)).
Definition enter (st : stage) (arch : string) : M unit := fun w =>
  Ok tt (World (fs w) (cwd w) (trace w) (calls w ++ [(st, arch)])).

Definition result_world {A : Type} (r : result A) : world :=
  match r with Ok _ w => w | Raise _ w => w end.

(** [for x in l: body(x)] *)
Fixpoint for_each {A : Type} (l : list A) (body : A -> M unit) : M unit :=
  match l with
  | [] => mret tt
  | x :: l' => body x ;; for_each l' body
  end.

(** [d[k]] on a dict kept in insertion order. *)
Fixpoint assoc (k : string) (d : list (string * string)) : option string :=
  match d with
  | [] => None
  | (k', v) :: d' => if String.eqb k k' then Some v else assoc k d'
  end.

Definition subscript (d : list (string * string)) (k : string) : M string :=
  match assoc k d with
  | Some v => mret v
  | None => raise (KeyError k)
  end.

(** ** Filesystem primitives ([os], [os.path], [shutil], [zipfile]) *)

Module FS.

Definition isabs (p : string) : bool :=
  match p with
  | String c (String d _) => Path.is_sep c || Ascii.eqb d ":"%char
  | String c EmptyString => Path.is_sep c
  | EmptyString => false
  end.

(** A path as the filesystem map keys it: relative paths are taken from the
    working directory. *)
Definition resolve (w : world) (p : string) : string :=
  if isabs p then p else Path.join (cwd w) p.

Definition exists_ (w : world) (p : string) : bool :=
  match fs w !! resolve w p with Some _ => true | None => false end.

Definition isdir (w : world) (p : string) : bool :=
  match fs w !! resolve w p with Some NDir => true | _ => false end.

Definition isfile (w : world) (p : string) : bool :=
  match fs w !! resolve w p with Some (NFile _) => true | _ => false end.

(** The proper ancestors of a path, outermost first. *)
Fixpoint ancestors_from (seen rest : string) : list string :=
  match rest with
  | EmptyString => []
  | String c rest' =>
      ((if Path.is_sep c && negb (String.eqb seen "") then [seen] else [])
       ++ ancestors_from (seen ++ String c "") rest')%list
  end.
Definition ancestors (p : string) : list string := ancestors_from "" p.

(** [os.makedirs(d)]: the leaf must not exist, no ancestor may be a file;
    missing ancestors are created on the way. *)
Definition makedirs (d : string) : M unit :=
  w ← get_world;
  let p := resolve w d in
  if exists_ w d then raise (OSError "FileExistsError")
  else if existsb (fun a => match fs w !! a with Some (NFile _) => true | _ => false end)
                 (ancestors p)
  then raise (OSError "NotADirectoryError")
  else
    set_fs (foldr (fun a f => <[a := NDir]> f) (fs w) (ancestors p ++ [p])) ;;
    log (EvMakedirs d).

(** [open(path, 'w')]: creates or truncates; a directory cannot be opened. *)
Definition open_w (path : string) : M unit :=
  w ← get_world;
  if isdir w path then raise (OSError "IsADirectoryError")
  else set_fs (<[resolve w path := NFile ""]> (fs w)) ;; log (EvOpen path).

(** [f.write(data)] on a file opened from [path]. *)
Definition write (path data : string) : M unit :=
  w ← get_world;
  let old := match fs w !! resolve w path with Some (NFile c) => c | _ => "" end in
  set_fs (<[resolve w path := NFile (old ++ data)]> (fs w)) ;; log (EvWrite path data).

Definition read (w : world) (path : string) : string :=
  match fs w !! resolve w path with Some (NFile c) => c | _ => "" end.

(** [os.chdir(d)] *)
Definition chdir (d : string) : M unit :=
  w ← get_world;
  if isdir w d then set_cwd (resolve w d) ;; log (EvChdir d)
  else raise (OSError "FileNotFoundError").

(** [os.chdir(old)] with [old] a value of [os.getcwd()]: back to a directory
    the script was in before (the script never removes a directory). *)
Definition chdir_back (old : string) : M unit :=
  set_cwd old ;; log (EvChdir old).

(** A directory is at this key of the filesystem map. *)
Definition dir_at (w : world) (key : string) : bool :=
  match fs w !! key with Some NDir => true | _ => false end.

(** The directory a new file at [key] would be made in is there: the
    working directory and the root of a drive always are. *)
Definition parent_exists (w : world) (key : string) : bool :=
  let d := Path.dirname key in
  if String.eqb d "" then true
  else match Str.last_char d with
       | Some c => Ascii.eqb c ":"%char || dir_at w d
       | None => true
       end.

(** [shutil.copy(src, dst)]: [src] must be a file; the copy lands inside
    [dst] when that is a directory, else it becomes the file [dst], whose
    directory must be there. *)
Definition copy (src dst : string) : M unit :=
  w ← get_world;
  match fs w !! resolve w src with
  | Some (NFile c) =>
      if isdir w dst then
        let target := Path.join (resolve w dst) (Path.basename src) in
        if dir_at w target then raise (OSError "IsADirectoryError")
        else set_fs (<[target := NFile c]> (fs w)) ;; log (EvCopy src dst)
      else
        let target := resolve w dst in
        if parent_exists w target then
          set_fs (<[target := NFile c]> (fs w)) ;; log (EvCopy src dst)
        else raise (OSError "FileNotFoundError")
  | _ => raise (OSError "FileNotFoundError")
  end.

(** [zipfile.ZipFile(path, 'w', c)]: the archive file exists from here on. *)
Definition zip_open (path : string) (c : compression) : M unit :=
  w ← get_world;
  if isdir w path then raise (OSError "IsADirectoryError")
  else set_fs (<[resolve w path := NFile ""]> (fs w)) ;; log (EvZipOpen path c).

(** [zipout.write(entry)] *)
Definition zip_write (archive entry : string) : M unit :=
  w ← get_world;
  if isfile w entry then log (EvZipWrite archive entry)
  else raise (OSError "FileNotFoundError").

(** The entries directly inside directory [d]: name and kind. *)
Definition child_of (d : string) (k : string) : option string :=
  let pre := Path.join d "" in
  if String.prefix pre k then
    let rest := String.substring (String.length pre) (String.length k - String.length pre) k in
    if negb (String.eqb rest "") && negb (Path.has_sep rest) then Some rest else None
  else None.

Definition listdir (f : gmap string node) (d : string) : list (string * node) :=
  omap (fun kn => match child_of d (fst kn) with
                  | Some name => Some (name, snd kn)
                  | None => None
                  end) (map_to_list f).

Definition is_dir_node (n : node) : bool :=
  match n with NDir => true | NFile _ => false end.

(** [os.walk(top)], top down; nothing is yielded for a [top] that is not a
    directory.  The recursion goes one level down per unit of [fuel]. *)
Fixpoint walk_from (fuel : nat) (f : gmap string node) (top : string)
  : list (string * list string * list string) :=
  match fuel with
  | O => []
  | S fuel' =>
      let kids := listdir f top in
      let dirs := map fst (filter (fun kn => is_dir_node (snd kn) = true) kids) in
      let files := map fst (filter (fun kn => is_dir_node (snd kn) = false) kids) in
      (top, dirs, files) :: flat_map (fun d => walk_from fuel' f (Path.join top d)) dirs
  end.

Definition walk (w : world) (top : string) : list (string * list string * list string) :=
  if isdir w top then walk_from (S (size (fs w))) (fs w) (resolve w top) else [].

End FS.

(** ** The script *)

(** [VS_RUNTIME_PATS]: [vcomp.*\.dll], [msvcp.*\.dll], [msvcr.*\.dll],
    [vcrun.*\.dll]. *)
Definition runtime_pat (stem : string) : Re.regex :=
  Re.lit stem (Re.Seq (Re.Star Re.Dot) (Re.lit ".dll" Re.Eps)).

Definition VS_RUNTIME_PATS : list Re.regex :=
  [runtime_pat "vcomp"; runtime_pat "msvcp"; runtime_pat "msvcr"; runtime_pat "vcrun"].

(** The closure [check_root] of [cp_vs_runtime]. *)
Definition check_root (platform root : string) : bool :=
  Str.contains platform root
  && (Str.contains "CRT" root || Str.contains "MP" root)
  && negb (Str.contains "onecore" root)
  && negb (Str.contains "debug" root).

(** The three nested loops of [cp_vs_runtime] that fill [vs_runtime_files]:
    over the walk, over the files of a directory, over the patterns. *)
Definition collect_runtime_files (isdir : string -> bool) (platform : string)
    (entries : list (string * list string * list string)) : list string :=
  fold_left (fun acc entry =>
    let '(root, dirs, files) := entry in
    fold_left (fun acc filename =>
      if Glob.fnmatch filename "*.dll" && check_root platform root then
        fold_left (fun acc pat =>
          if Re.rmatch pat filename then
            let fname := Path.join root filename in
            if negb (isdir fname) then (acc ++ [fname])%list else acc
          else acc) VS_RUNTIME_PATS acc
      else acc) files acc) entries [].

(** The flags each optional component appends to the [cmake] command. *)
Definition dotnet_flags : list string :=
  [" -DZ3_BUILD_DOTNET_BINDINGS=ON"; " -DZ3_INSTALL_DOTNET_BINDINGS=ON"].
Definition java_flags : list string :=
  [" -DZ3_BUILD_JAVA_BINDINGS=ON"; " -DZ3_INSTALL_JAVA_BINDINGS=ON";
   " -DZ3_JAVA_JAR_INSTALLDIR=java"; " -DZ3_JAVA_JNI_LIB_INSTALLDIR=java"].
Definition python_flags : list string :=
  [" -DZ3_BUILD_PYTHON_BINDINGS=ON"; " -DZ3_INSTALL_PYTHON_BINDINGS=ON";
   " -DCMAKE_INSTALL_PYTHON_PKG_DIR=python"].

Definition vcvarsall_2022 : string :=
  "call " ++ Str.dquote
  ++ "C:\Program Files\Microsoft Visual Studio\2022\Enterprise\VC\Auxiliary\Build\vcvarsall.bat"
  ++ Str.dquote ++ " ".

Definition vcvarsall_env : string :=
  "call " ++ Str.dquote ++ "%VCINSTALLDIR%Auxiliary\build\vcvarsall.bat" ++ Str.dquote ++ " ".

Section Script.

Variable env : Env.
Variable cfg : Config.

Definition mk_dir (d : string) : M unit :=
  w ← get_world;
  if negb (FS.exists_ w d) then FS.makedirs d else mret tt.

Definition check_build_dir (w : world) (path : string) : bool :=
  FS.exists_ w path && FS.exists_ w (Path.join path "Makefile").

(** [subprocess.Popen(cmd, stdout=PIPE).communicate()[0]], decoded and
    right-stripped. *)
Definition check_output (cmd : list string) : M string :=
  match proc env cmd with
  | Some out => log (EvPopen cmd) ;; mret (Str.rstrip_crlf out)
  | None => raise (OSError "Popen")
  end.

Definition get_git_hash : M string :=
  r ← try_except
        (branch ← check_output ["git"; "rev-parse"; "--abbrev-ref"; "HEAD"];
         check_output ["git"; "show-ref"; "--abbrev=12"; "refs/heads/" ++ branch])
        (fun _ => raise (MKException "Failed to retrieve git hash"));
  let ls := Str.split " "%char r in
  if negb (List.length ls =? 2)%nat then raise (MKException ("Unexpected git output " ++ r))
  else mret (nth 0 ls "").

(** [subprocess.call(script, shell=True)] *)
Definition subprocess_call (script : string) : M Z :=
  w ← get_world;
  match shell env (FS.read w script) (fs w) with
  | Some (status, fs') => log (EvCall script (FS.read w script)) ;; set_fs fs' ;; mret status
  | None => raise (OSError "subprocess.call")
  end.

(** [os.erase]: the [os] module has no such attribute. *)
Definition os_erase (path : string) : M unit := raise (AttributeError "erase").

Definition exec_cmds (cmds : list string) : M Z :=
  let cmd_file := "z3_tmp.cmd" in
  FS.open_w cmd_file ;;
  for_each cmds (fun cmd => FS.write cmd_file cmd ;; FS.write cmd_file Str.newline) ;;
  res ← try_except (subprocess_call cmd_file) (fun _ => mret 1%Z);
  try_except (os_erase cmd_file) (fun _ => mret tt) ;;
  mret res.

(** The [cmake] flags before and after the optional [-DGIT_HASH]. *)
Definition cmake_head : list string :=
  (["cmake -S ."]
   ++ (if DOTNET_CORE_ENABLED cfg then dotnet_flags else [])
   ++ (if JAVA_ENABLED cfg then java_flags else [])
   ++ (if PYTHON_ENABLED cfg then python_flags else []))%list.

Definition cmake_tail (install_path : string) : list string :=
  [" -DZ3_USE_LIB_GMP=OFF"; " -DZ3_BUILD_LIBZ3_SHARED=ON";
   " -DCMAKE_BUILD_TYPE=RelWithDebInfo"; " -DCMAKE_INSTALL_PREFIX=" ++ install_path;
   " -G " ++ Str.dquote ++ "NMake Makefiles" ++ Str.dquote; " ../.." ++ Str.newline].

(** Lines 179 to 209 of [mk_build_dir]: the list [cmd] of the pieces of the
    [cmake] command ... *)
Definition cmake_cmd (install_path : string) : M (list string) :=
  let cmd := cmake_head in
  cmd ← (if GIT_HASH cfg then
           git_hash ← get_git_hash; mret (cmd ++ [(" -DGIT_HASH=" ++ git_hash)%string])%list
         else mret cmd);
  mret (cmd ++ cmake_tail install_path)%list.

(** ... and the list [cmds] run by the configure session. *)
Definition configure_cmds (arch build_path install_path : string) : M (list string) :=
  let arch := if String.eqb arch "arm64" then "amd64_arm64" else arch in
  let cmds := ["cd " ++ build_path; vcvarsall_2022 ++ arch] in
  cmd ← cmake_cmd install_path;
  mret (cmds ++ [Str.join cmd])%list.

Definition mk_build_dir (arch : string) : M unit :=
  enter Configure arch ;;
  build_path ← subscript (ARCHS cfg) arch;
  let install_path := DIST_DIR in
  w ← get_world;
  if negb (check_build_dir w build_path) || FORCE_MK cfg then
    mk_dir build_path ;;
    cmds ← configure_cmds arch build_path install_path;
    res ← exec_cmds cmds;
    if negb (res =? 0)%Z then raise (MKException "failed to run commands") else mret tt
  else mret tt.

Definition archs : list string := map fst (ARCHS cfg).

Definition mk_build_dirs : M unit := for_each archs mk_build_dir.

Definition check_vc_cmd_prompt : M unit :=
  try_except
    (match proc env ["cl"] with
     | Some _ => log (EvPopen ["cl"])
     | None => raise (OSError "subprocess.call")
     end)
    (fun _ => raise (MKException
       "You must execute the mk_win_dist.py script on a Visual Studio Command Prompt")).

Definition get_build_dir (arch : string) : M string := subscript (ARCHS cfg) arch.

Definition install_cmds (arch build_dir : string) : list string :=
  let arch := if String.eqb arch "arm64" then "x64_arm64" else arch in
  [vcvarsall_env ++ arch; "cd " ++ build_dir; "nmake install"].

Definition mk_z3 (arch : string) : M unit :=
  enter Install arch ;;
  build_dir ← get_build_dir arch;
  res ← exec_cmds (install_cmds arch build_dir);
  if negb (res =? 0)%Z then raise (MKException "Failed to make z3") else mret tt.

Definition mk_z3s : M unit := for_each archs mk_z3.

Definition get_z3_name (arch : string) : M string :=
  let version := match ASSEMBLY_VERSION cfg with
                 | Some v => if String.eqb v "" then "4" else v
                 | None => "4"
                 end in
  if GIT_HASH cfg then
    git_hash ← get_git_hash;
    mret ("z3-" ++ version ++ "." ++ git_hash ++ "-" ++ arch ++ "-win")
  else
    mret ("z3-" ++ version ++ "-" ++ arch ++ "-win").

(** A global name that is bound nowhere in the module. *)
Definition unbound (name : string) : M string := raise (NameError name).

Definition mk_zip (arch : string) : M unit :=
  enter Archive arch ;;
  build_dir ← subscript (ARCHS cfg) arch;
  let dist_dir := Path.join build_dir DIST_DIR in
  dist_name ← get_z3_name arch;
  w ← get_world;
  let old := cwd w in
  try_except
    (FS.chdir dist_dir ;;
     let zfname := dist_name ++ ".zip" in
     FS.zip_open zfname ZIP_DEFLATED ;;
     dist_path ← unbound "dist_path";
     w ← get_world;
     for_each (FS.walk w dist_path) (fun entry =>
       let '(root, dirs, files) := entry in
       for_each files (fun f => FS.zip_write zfname (Path.join root f))))
    (fun _ => mret tt) ;;
  FS.chdir_back old.

Definition mk_zips : M unit := for_each archs mk_zip.

Definition cp_vs_runtime (arch : string) : M unit :=
  enter Runtime arch ;;
  let platform := arch in
  vcdir ← match environ env "VCINSTALLDIR" with
          | Some v => mret v
          | None => raise (KeyError "VCINSTALLDIR")
          end;
  let path := vcdir ++ "redist" in
  w ← get_world;
  let vs_runtime_files := collect_runtime_files (FS.isdir w) platform (FS.walk w path) in
  match vs_runtime_files with
  | [] => raise (MKException "Did not find any runtime files to include")
  | _ =>
      build_dir ← get_build_dir arch;
      let bin_dist_path := Path.join (Path.join build_dir DIST_DIR) "bin" in
      for_each vs_runtime_files (fun f => FS.copy f bin_dist_path)
  end.

Definition cp_vs_runtimes : M unit := for_each archs cp_vs_runtime.

Definition cp_license (arch : string) : M unit :=
  enter License arch ;;
  name ← get_z3_name arch;
  FS.copy "LICENSE.txt" (Path.join DIST_DIR name).

Definition cp_licenses : M unit := for_each archs cp_license.

Definition build_for_arch (arch : string) : M unit :=
  mk_build_dir arch ;;
  mk_z3 arch ;;
  cp_license arch ;;
  cp_vs_runtime arch ;;
  if ZIP_BUILD_OUTPUTS cfg then mk_zip arch else mret tt.

(** The entry point, from the point where [parse_options] has set the
    globals [cfg] and [set_build_dir] has made the three workspace roots
    ([main_script] below has the whole of it, [parse_options] included). *)
Definition main : M unit :=
  if negb (String.eqb (os_name env) "nt") then
    raise (MKException "This script is for Windows only")
  else
    check_vc_cmd_prompt ;;
    if X86ONLY cfg then build_for_arch "x86"
    else if X64ONLY cfg then build_for_arch "x64"
    else if ARM64ONLY cfg then build_for_arch "arm64"
    else
      mk_build_dirs ;;
      mk_z3s ;;
      cp_licenses ;;
      cp_vs_runtimes ;;
      if ZIP_BUILD_OUTPUTS cfg then mk_zips else mret tt.

End Script.

(** [set_build_dir(path)]: the registry [ARCHS], in the order the dict
    literal lists it. *)
Definition registry (path : string) : list (string * string) :=
  [("x64", Path.join path "x64"); ("x86", Path.join path "x86");
   ("arm64", Path.join path "arm64")].


(** * Observations on runs *)

(** [m] leaves every world related by [R] to the one it started in, whether
    it returns or raises. *)
Definition respects (R : world -> world -> Prop) {A : Type} (m : M A) : Prop :=
  forall w, R w (result_world (m w)).

(** The ghost log, respectively the working directory, is as it was. *)
Definition same_calls (w w' : world) : Prop := calls w' = calls w.
Definition same_cwd (w w' : world) : Prop := cwd w' = cwd w.

(** The trace grew, and only by events that satisfy [p]. *)
Definition adds_only (p : event -> bool) (w w' : world) : Prop :=
  exists evs, trace w' = (trace w ++ evs)%list /\ forallb p evs = true.

(** A command session was run. *)
Definition is_call (ev : event) : bool :=
  match ev with EvCall _ _ => true | _ => false end.

(** The events of the packaging steps: a file copied, an archive opened or
    written to. *)
Definition is_pack (ev : event) : bool :=
  match ev with
  | EvCopy _ _ | EvZipOpen _ _ | EvZipWrite _ _ => true
  | _ => false
  end.

(** The exception a run ended with, if any. *)
Definition outcome {A : Type} (r : result A) : option exn :=
  match r with Ok _ _ => None | Raise e _ => Some e end.

(** The world with [evs] appended to its trace. *)
Definition add_events (w : world) (evs : list event) : world :=
  World (fs w) (cwd w) (trace w ++ evs) (calls w).

(** What the two queries of [get_git_hash] come to: the processes that were
    started, and the output [r] of the second one ([None] when one of the two
    could not be started). *)
Definition git_query (env : Env) : list event * option string :=
  let q1 := ["git"; "rev-parse"; "--abbrev-ref"; "HEAD"] in
  match proc env q1 with
  | None => ([], None)
  | Some out1 =>
      let q2 := ["git"; "show-ref"; "--abbrev=12"; "refs/heads/" ++ Str.rstrip_crlf out1] in
      match proc env q2 with
      | None => ([EvPopen q1], None)
      | Some out2 => ([EvPopen q1; EvPopen q2], Some (Str.rstrip_crlf out2))
      end
  end.

(** The version-control query fails, or its output is not exactly a hash and
    a ref name separated by one blank. *)
Definition revision_unresolvable (env : Env) : Prop :=
  match snd (git_query env) with
  | None => True
  | Some r => List.length (Str.split " "%char r) <> 2%nat
  end.

(** Creating a directory or querying git: what [mk_build_dir] may do before
    it runs a session. *)
Definition is_prepare (ev : event) : bool :=
  match ev with
  | EvMakedirs _ => true
  | EvPopen ("git" :: _) => true
  | _ => false
  end.




(** The release version [get_z3_name] uses. *)
Definition release_version (cfg : Config) : string :=
  match ASSEMBLY_VERSION cfg with
  | Some v => if String.eqb v "" then "4" else v
  | None => "4"
  end.

(** The distribution name as [get_z3_name] formats it:
    [z3-<version>[.<revhash>]-<arch>-win]. *)
Definition dist_name (version : string) (revhash : option string) (arch : string) : string :=
  "z3-" ++ version ++ match revhash with Some h => "." ++ h | None => "" end
  ++ "-" ++ arch ++ "-win".

(** The archive name as the specification words it:
    [<name>-<version>[-<revhash>]-<arch>-win.zip]. *)
Definition spec_archive_name (version : string) (revhash : option string) (arch : string)
  : string :=
  "z3-" ++ version ++ match revhash with Some h => "-" ++ h | None => "" end
  ++ "-" ++ arch ++ "-win.zip".

(** The text of a script that has each command on a line of its own. *)
Definition script_text (cmds : list string) : string :=
  Str.join (map (fun cmd => cmd ++ Str.newline) cmds).

(** The writes [exec_cmds] makes for a command list. *)
Definition script_writes (cmds : list string) : list event :=
  flat_map (fun cmd => [EvWrite "z3_tmp.cmd" cmd; EvWrite "z3_tmp.cmd" Str.newline]) cmds.

Fixpoint skip_arch (a : string) (l : list (stage * string)) : list (stage * string) :=
  match l with
  | [] => []
  | c :: l' => if String.eqb (snd c) a then skip_arch a l' else l
  end.

(** In a log of procedure entries, architecture by architecture: once the
    log has moved on from an architecture it never comes back to it. *)
Fixpoint arch_by_arch (l : list (stage * string)) : bool :=
  match l with
  | [] => true
  | (_, a) :: l' =>
      negb (existsb (fun c => String.eqb (snd c) a) (skip_arch a l'))
      && arch_by_arch l'
  end.

(** The entries of one stage for a list of architectures. *)
Definition stage_calls (st : stage) (l : list string) : list (stage * string) :=
  map (fun a => (st, a)) l.

(** The hash [get_git_hash] returns, when it returns. *)
Definition resolved_hash (env : Env) : option string :=
  match snd (git_query env) with
  | Some r =>
      if (List.length (Str.split " "%char r) =? 2)%nat
      then Some (nth 0 (Str.split " "%char r) "") else None
  | None => None
  end.

(** What [mk_zip] leaves once the distribution name is known: it goes to the
    distribution directory, opens the archive there, and comes back; a step
    that raises ends the attempt without a trace of its own. *)
Definition zip_outcome (dist_dir zfname : string) (w : world) : world :=
  let back (v : world) := World (fs v) (cwd w) (trace v ++ [EvChdir (cwd w)]) (calls v) in
  if FS.isdir w dist_dir then
    let w1 := World (fs w) (FS.resolve w dist_dir) (trace w ++ [EvChdir dist_dir]) (calls w) in
    if FS.isdir w1 zfname then back w1
    else back (World (<[FS.resolve w1 zfname := NFile ""]> (fs w1)) (cwd w1)
                 (trace w1 ++ [EvZipOpen zfname ZIP_DEFLATED]) (calls w1))
  else back w.

(** The name the script gives the distribution of an architecture. *)
Definition z3_name (env : Env) (cfg : Config) (arch : string) : string :=
  dist_name (release_version cfg) (if GIT_HASH cfg then resolved_hash env else None) arch.

(** * Sample worlds *)

Module Sample.

Definition with_dirs (l : list string) (f : gmap string node) : gmap string node :=
  foldr (fun d f => <[d := NDir]> f) f l.

Definition with_files (l : list string) (f : gmap string node) : gmap string node :=
  foldr (fun p f => <[p := NFile "."]> f) f l.

(** A Visual Studio redistributable tree for one platform, with a debug
    variant next to it. *)
Definition redist (platform : string) : gmap string node -> gmap string node :=
  fun f =>
  let r := "C:\VS\VC\redist\MSVC\14.x\" ++ platform in
  let d := "C:\VS\VC\redist\MSVC\14.x\debug\" ++ platform in
  with_files [r ++ "\Microsoft.VC143.CRT\vcruntime140.dll";
              r ++ "\Microsoft.VC143.CRT\msvcp140.dll";
              r ++ "\Microsoft.VC143.CRT\readme.txt";
              d ++ "\Microsoft.VC143.CRT\vcruntime140.dll"]
    (with_dirs [r; r ++ "\Microsoft.VC143.CRT"; d; d ++ "\Microsoft.VC143.CRT"] f).

Definition vs_root : gmap string node :=
  with_dirs ["C:\VS\VC\redist"; "C:\VS\VC\redist\MSVC"; "C:\VS\VC\redist\MSVC\14.x";
             "C:\VS\VC\redist\MSVC\14.x\debug"] ∅.

(** The workspaces after [set_build_dir], with an install tree each. *)
Definition workspaces (f : gmap string node) : gmap string node :=
  with_files ["LICENSE.txt"]
    (with_dirs ["build-dist"; "dist";
                "build-dist\x64"; "build-dist\x64\dist"; "build-dist\x64\dist\bin";
                "build-dist\x86"; "build-dist\x86\dist"; "build-dist\x86\dist\bin";
                "build-dist\arm64"; "build-dist\arm64\dist"; "build-dist\arm64\dist\bin"] f).

(** Only the x64 redistributables are installed, and only the x64 workspace
    is configured. *)
Definition fs_x64 : gmap string node :=
  with_files ["build-dist\x64\Makefile"] (workspaces (redist "x64" vs_root)).

(** Redistributables for the three platforms, nothing configured yet. *)
Definition fs_all : gmap string node :=
  workspaces (redist "x64" (redist "x86" (redist "arm64" vs_root))).

Definition start (f : gmap string node) : world := World f "" [] [].

Definition vc_environ (k : string) : option string :=
  if String.eqb k "VCINSTALLDIR" then Some "C:\VS\VC\" else None.

(** git answers with branch [main] and one ref. *)
Definition git_one_ref (cmd : list string) : option string :=
  match cmd with
  | "git" :: "rev-parse" :: _ => Some ("main" ++ Str.newline)
  | "git" :: "show-ref" :: _ => Some ("0123456789ab refs/heads/main" ++ Str.newline)
  | _ => Some ""
  end.

(** git knows the branch but [show-ref] prints no ref. *)
Definition git_no_ref (cmd : list string) : option string :=
  match cmd with
  | "git" :: "rev-parse" :: _ => Some ("main" ++ Str.newline)
  | _ => Some ""
  end.

(** Every session succeeds and leaves the filesystem as it is. *)
Definition env_ok : Env :=
  {| os_name := "nt"; environ := vc_environ;
     shell := fun _ f => Some (0%Z, f); proc := git_one_ref |}.

Definition env_no_ref : Env :=
  {| os_name := "nt"; environ := vc_environ;
     shell := fun _ f => Some (0%Z, f); proc := git_no_ref |}.

(** Every session ends with status 1. *)
Definition env_fail : Env :=
  {| os_name := "nt"; environ := vc_environ;
     shell := fun _ f => Some (1%Z, f); proc := git_one_ref |}.

(** No optional component, archives on, default version, no revision. *)
Definition cfg_plain : Config :=
  {| ARCHS := registry "build-dist"; FORCE_MK := false; ASSEMBLY_VERSION := None;
     DOTNET_CORE_ENABLED := false; JAVA_ENABLED := false; ZIP_BUILD_OUTPUTS := true;
     GIT_HASH := false; PYTHON_ENABLED := false;
     X86ONLY := false; X64ONLY := false; ARM64ONLY := false |}.

Definition cfg_x64 : Config :=
  {| ARCHS := registry "build-dist"; FORCE_MK := false; ASSEMBLY_VERSION := None;
     DOTNET_CORE_ENABLED := false; JAVA_ENABLED := false; ZIP_BUILD_OUTPUTS := true;
     GIT_HASH := false; PYTHON_ENABLED := false;
     X86ONLY := false; X64ONLY := true; ARM64ONLY := false |}.

(** As [cfg_plain], with the revision in the names. *)
Definition cfg_githash : Config :=
  {| ARCHS := registry "build-dist"; FORCE_MK := false; ASSEMBLY_VERSION := None;
     DOTNET_CORE_ENABLED := false; JAVA_ENABLED := false; ZIP_BUILD_OUTPUTS := true;
     GIT_HASH := true; PYTHON_ENABLED := false;
     X86ONLY := false; X64ONLY := false; ARM64ONLY := false |}.

End Sample.

Module SampleBlocked.

(** A start directory in which [z3_tmp.cmd] is a directory. *)
Definition fs_blocked : gmap string node :=
  Sample.with_dirs ["z3_tmp.cmd"] Sample.fs_x64.

(** The shell cannot be started. *)
Definition env_no_shell : Env :=
  {| os_name := "nt"; environ := Sample.vc_environ;
     shell := fun _ _ => None; proc := Sample.git_one_ref |}.

End SampleBlocked.

(** What one file of the walk contributes to [vs_runtime_files]: its path,
    once for every pattern it matches in a directory that qualifies. *)
Definition runtime_entries (isdir : string -> bool) (platform root filename : string)
  : list string :=
  if Glob.fnmatch filename "*.dll" && check_root platform root then
    flat_map (fun pat =>
      if Re.rmatch pat filename && negb (isdir (Path.join root filename))
      then [Path.join root filename] else []) VS_RUNTIME_PATS
  else [].

(** * More of the script, and notions to state its behaviour *)

(** ** What a pattern accepts *)

(** The language of a regular expression. *)
Inductive lang : Re.regex -> string -> Prop :=
| lang_eps : lang Re.Eps ""
| lang_chr (c : ascii) : lang (Re.Chr c) (String c "")
| lang_dot (c : ascii) : c <> Str.nl -> lang Re.Dot (String c "")
| lang_seq (r1 r2 : Re.regex) (s1 s2 : string) :
    lang r1 s1 -> lang r2 s2 -> lang (Re.Seq r1 r2) (s1 ++ s2)
| lang_alt_l (r1 r2 : Re.regex) (s : string) : lang r1 s -> lang (Re.Alt r1 r2) s
| lang_alt_r (r1 r2 : Re.regex) (s : string) : lang r2 s -> lang (Re.Alt r1 r2) s
| lang_star_nil (r : Re.regex) : lang (Re.Star r) ""
| lang_star_cons (r : Re.regex) (s1 s2 : string) :
    lang r s1 -> lang (Re.Star r) s2 -> lang (Re.Star r) (s1 ++ s2).

(** The character [c] occurs in [s]. *)
Fixpoint has_char (c : ascii) (s : string) : bool :=
  match s with
  | EmptyString => false
  | String x s' => Ascii.eqb x c || has_char c s'
  end.

(** ** Environment variables *)

(** [s.lstrip(chars)], [s.rstrip(chars)] and [s.strip(chars)]: the longest
    runs of characters of [chars] are taken off the ends. *)
Fixpoint lstrip (chars s : string) : string :=
  match s with
  | EmptyString => EmptyString
  | String c s' => if has_char c chars then lstrip chars s' else s
  end.

Fixpoint rstrip (chars s : string) : string :=
  match s with
  | EmptyString => EmptyString
  | String c s' =>
      match rstrip chars s' with
      | EmptyString => if has_char c chars then EmptyString else String c EmptyString
      | r => String c r
      end
  end.

Definition strip (chars s : string) : string := lstrip chars (rstrip chars s).

(** The characters [getenv] strips: blank, double quote, single quote. *)
Definition getenv_chars : string := " " ++ Str.dquote ++ "'".

(** [getenv(name, default)]: the stripped value, or the default when the
    lookup raises. *)
Definition getenv (env : Env) (name default : string) : string :=
  match environ env name with
  | Some v => strip getenv_chars v
  | None => default
  end.

(** [MAKEJOBS] *)
Definition MAKEJOBS (env : Env) : string := getenv env "MAKEJOBS" "24".

(** Every character of [s] is one of [chars]. *)
Fixpoint all_in (chars s : string) : bool :=
  match s with
  | EmptyString => true
  | String c s' => has_char c chars && all_in chars s'
  end.

Definition first_char (s : string) : option ascii :=
  match s with EmptyString => None | String c _ => Some c end.

(** ** The registry and the command line *)

(** [set_build_dir(path)]: the registry is returned (the script stores it in
    [ARCHS]) and the three workspace roots are made, x86 first.  [BUILD_DIR],
    which the function also sets, is read nowhere else in the script. *)
Definition set_build_dir (path : string) : M (list (string * string)) :=
  let BUILD_X86_DIR := Path.join path "x86" in
  let BUILD_X64_DIR := Path.join path "x64" in
  let BUILD_ARM64_DIR := Path.join path "arm64" in
  mk_dir BUILD_X86_DIR ;;
  mk_dir BUILD_X64_DIR ;;
  mk_dir BUILD_ARM64_DIR ;;
  mret [("x64", BUILD_X64_DIR); ("x86", BUILD_X86_DIR); ("arm64", BUILD_ARM64_DIR)].

(** Assignments to the globals. *)
Definition set_ARCHS (v : list (string * string)) (c : Config) : Config :=
  {| ARCHS := v;
     FORCE_MK := FORCE_MK c;
     ASSEMBLY_VERSION := ASSEMBLY_VERSION c;
     DOTNET_CORE_ENABLED := DOTNET_CORE_ENABLED c;
     JAVA_ENABLED := JAVA_ENABLED c;
     ZIP_BUILD_OUTPUTS := ZIP_BUILD_OUTPUTS c;
     GIT_HASH := GIT_HASH c;
     PYTHON_ENABLED := PYTHON_ENABLED c;
     X86ONLY := X86ONLY c;
     X64ONLY := X64ONLY c;
     ARM64ONLY := ARM64ONLY c |}.
Definition set_FORCE_MK (v : bool) (c : Config) : Config :=
  {| ARCHS := ARCHS c;
     FORCE_MK := v;
     ASSEMBLY_VERSION := ASSEMBLY_VERSION c;
     DOTNET_CORE_ENABLED := DOTNET_CORE_ENABLED c;
     JAVA_ENABLED := JAVA_ENABLED c;
     ZIP_BUILD_OUTPUTS := ZIP_BUILD_OUTPUTS c;
     GIT_HASH := GIT_HASH c;
     PYTHON_ENABLED := PYTHON_ENABLED c;
     X86ONLY := X86ONLY c;
     X64ONLY := X64ONLY c;
     ARM64ONLY := ARM64ONLY c |}.
Definition set_ASSEMBLY_VERSION (v : option string) (c : Config) : Config :=
  {| ARCHS := ARCHS c;
     FORCE_MK := FORCE_MK c;
     ASSEMBLY_VERSION := v;
     DOTNET_CORE_ENABLED := DOTNET_CORE_ENABLED c;
     JAVA_ENABLED := JAVA_ENABLED c;
     ZIP_BUILD_OUTPUTS := ZIP_BUILD_OUTPUTS c;
     GIT_HASH := GIT_HASH c;
     PYTHON_ENABLED := PYTHON_ENABLED c;
     X86ONLY := X86ONLY c;
     X64ONLY := X64ONLY c;
     ARM64ONLY := ARM64ONLY c |}.
Definition set_DOTNET_CORE_ENABLED (v : bool) (c : Config) : Config :=
  {| ARCHS := ARCHS c;
     FORCE_MK := FORCE_MK c;
     ASSEMBLY_VERSION := ASSEMBLY_VERSION c;
     DOTNET_CORE_ENABLED := v;
     JAVA_ENABLED := JAVA_ENABLED c;
     ZIP_BUILD_OUTPUTS := ZIP_BUILD_OUTPUTS c;
     GIT_HASH := GIT_HASH c;
     PYTHON_ENABLED := PYTHON_ENABLED c;
     X86ONLY := X86ONLY c;
     X64ONLY := X64ONLY c;
     ARM64ONLY := ARM64ONLY c |}.
Definition set_JAVA_ENABLED (v : bool) (c : Config) : Config :=
  {| ARCHS := ARCHS c;
     FORCE_MK := FORCE_MK c;
     ASSEMBLY_VERSION := ASSEMBLY_VERSION c;
     DOTNET_CORE_ENABLED := DOTNET_CORE_ENABLED c;
     JAVA_ENABLED := v;
     ZIP_BUILD_OUTPUTS := ZIP_BUILD_OUTPUTS c;
     GIT_HASH := GIT_HASH c;
     PYTHON_ENABLED := PYTHON_ENABLED c;
     X86ONLY := X86ONLY c;
     X64ONLY := X64ONLY c;
     ARM64ONLY := ARM64ONLY c |}.
Definition set_ZIP_BUILD_OUTPUTS (v : bool) (c : Config) : Config :=
  {| ARCHS := ARCHS c;
     FORCE_MK := FORCE_MK c;
     ASSEMBLY_VERSION := ASSEMBLY_VERSION c;
     DOTNET_CORE_ENABLED := DOTNET_CORE_ENABLED c;
     JAVA_ENABLED := JAVA_ENABLED c;
     ZIP_BUILD_OUTPUTS := v;
     GIT_HASH := GIT_HASH c;
     PYTHON_ENABLED := PYTHON_ENABLED c;
     X86ONLY := X86ONLY c;
     X64ONLY := X64ONLY c;
     ARM64ONLY := ARM64ONLY c |}.
Definition set_GIT_HASH (v : bool) (c : Config) : Config :=
  {| ARCHS := ARCHS c;
     FORCE_MK := FORCE_MK c;
     ASSEMBLY_VERSION := ASSEMBLY_VERSION c;
     DOTNET_CORE_ENABLED := DOTNET_CORE_ENABLED c;
     JAVA_ENABLED := JAVA_ENABLED c;
     ZIP_BUILD_OUTPUTS := ZIP_BUILD_OUTPUTS c;
     GIT_HASH := v;
     PYTHON_ENABLED := PYTHON_ENABLED c;
     X86ONLY := X86ONLY c;
     X64ONLY := X64ONLY c;
     ARM64ONLY := ARM64ONLY c |}.
Definition set_PYTHON_ENABLED (v : bool) (c : Config) : Config :=
  {| ARCHS := ARCHS c;
     FORCE_MK := FORCE_MK c;
     ASSEMBLY_VERSION := ASSEMBLY_VERSION c;
     DOTNET_CORE_ENABLED := DOTNET_CORE_ENABLED c;
     JAVA_ENABLED := JAVA_ENABLED c;
     ZIP_BUILD_OUTPUTS := ZIP_BUILD_OUTPUTS c;
     GIT_HASH := GIT_HASH c;
     PYTHON_ENABLED := v;
     X86ONLY := X86ONLY c;
     X64ONLY := X64ONLY c;
     ARM64ONLY := ARM64ONLY c |}.
Definition set_X86ONLY (v : bool) (c : Config) : Config :=
  {| ARCHS := ARCHS c;
     FORCE_MK := FORCE_MK c;
     ASSEMBLY_VERSION := ASSEMBLY_VERSION c;
     DOTNET_CORE_ENABLED := DOTNET_CORE_ENABLED c;
     JAVA_ENABLED := JAVA_ENABLED c;
     ZIP_BUILD_OUTPUTS := ZIP_BUILD_OUTPUTS c;
     GIT_HASH := GIT_HASH c;
     PYTHON_ENABLED := PYTHON_ENABLED c;
     X86ONLY := v;
     X64ONLY := X64ONLY c;
     ARM64ONLY := ARM64ONLY c |}.
Definition set_X64ONLY (v : bool) (c : Config) : Config :=
  {| ARCHS := ARCHS c;
     FORCE_MK := FORCE_MK c;
     ASSEMBLY_VERSION := ASSEMBLY_VERSION c;
     DOTNET_CORE_ENABLED := DOTNET_CORE_ENABLED c;
     JAVA_ENABLED := JAVA_ENABLED c;
     ZIP_BUILD_OUTPUTS := ZIP_BUILD_OUTPUTS c;
     GIT_HASH := GIT_HASH c;
     PYTHON_ENABLED := PYTHON_ENABLED c;
     X86ONLY := X86ONLY c;
     X64ONLY := v;
     ARM64ONLY := ARM64ONLY c |}.
Definition set_ARM64ONLY (v : bool) (c : Config) : Config :=
  {| ARCHS := ARCHS c;
     FORCE_MK := FORCE_MK c;
     ASSEMBLY_VERSION := ASSEMBLY_VERSION c;
     DOTNET_CORE_ENABLED := DOTNET_CORE_ENABLED c;
     JAVA_ENABLED := JAVA_ENABLED c;
     ZIP_BUILD_OUTPUTS := ZIP_BUILD_OUTPUTS c;
     GIT_HASH := GIT_HASH c;
     PYTHON_ENABLED := PYTHON_ENABLED c;
     X86ONLY := X86ONLY c;
     X64ONLY := X64ONLY c;
     ARM64ONLY := v |}.

(** The globals [parse_options] works on: the configuration and, beside it,
    the local [path], [VERBOSE] and [DOTNET_KEY_FILE]. *)
Record Options : Type := {
  path : string;
  VERBOSE : bool;
  DOTNET_KEY_FILE : option string;
  globals : Config
}.

(** The values the module gives its globals when it is loaded. *)
Definition initial_globals : Config :=
  {| ARCHS := []; FORCE_MK := false; ASSEMBLY_VERSION := None;
     DOTNET_CORE_ENABLED := true; JAVA_ENABLED := true; ZIP_BUILD_OUTPUTS := false;
     GIT_HASH := false; PYTHON_ENABLED := true;
     X86ONLY := false; X64ONLY := false; ARM64ONLY := false |}.

Definition initial_options : Options :=
  {| path := "build-dist"; VERBOSE := true; DOTNET_KEY_FILE := None;
     globals := initial_globals |}.

Definition with_globals (f : Config -> Config) (o : Options) : Options :=
  {| path := path o; VERBOSE := VERBOSE o; DOTNET_KEY_FILE := DOTNET_KEY_FILE o;
     globals := f (globals o) |}.

(** How the option loop ends: normally, with an exception, or in
    [display_help], which calls [exit(0)]. *)
Inductive parse_result : Type :=
| Parsed (o : Options)
| Invalid (e : exn)
| SystemExit (code : Z).

Definition opt_in (opt a b : string) : bool := String.eqb opt a || String.eqb opt b.

(** One turn of the loop of [parse_options] over the pairs that
    [getopt.gnu_getopt] returns. *)
Definition parse_option (opt arg : string) (o : Options) : parse_result :=
  if opt_in opt "-b" "--build" then
    if String.eqb arg "src" then
      Invalid (MKException "The src directory should not be used to host the Makefile")
    else Parsed {| path := arg; VERBOSE := VERBOSE o; DOTNET_KEY_FILE := DOTNET_KEY_FILE o;
                   globals := globals o |}
  else if opt_in opt "-s" "--silent" then
    Parsed {| path := path o; VERBOSE := false; DOTNET_KEY_FILE := DOTNET_KEY_FILE o;
              globals := globals o |}
  else if opt_in opt "-h" "--help" then SystemExit 0
  else if opt_in opt "-f" "--force" then Parsed (with_globals (set_FORCE_MK true) o)
  else if String.eqb opt "--nodotnet" then
    Parsed (with_globals (set_DOTNET_CORE_ENABLED false) o)
  else if String.eqb opt "--assembly-version" then
    Parsed (with_globals (set_ASSEMBLY_VERSION (Some arg)) o)
  else if String.eqb opt "--nopython" then Parsed (with_globals (set_PYTHON_ENABLED false) o)
  else if String.eqb opt "--dotnet-key" then
    Parsed {| path := path o; VERBOSE := VERBOSE o; DOTNET_KEY_FILE := Some arg;
              globals := globals o |}
  else if String.eqb opt "--nojava" then Parsed (with_globals (set_JAVA_ENABLED false) o)
  else if String.eqb opt "--zip" then Parsed (with_globals (set_ZIP_BUILD_OUTPUTS true) o)
  else if String.eqb opt "--githash" then Parsed (with_globals (set_GIT_HASH true) o)
  else if String.eqb opt "--x86-only" && negb (X64ONLY (globals o)) then
    Parsed (with_globals (set_X86ONLY true) o)
  else if String.eqb opt "--arm64-only" && negb (X86ONLY (globals o))
          && negb (X64ONLY (globals o)) then
    Parsed (with_globals (set_ARM64ONLY true) o)
  else if String.eqb opt "--x64-only" && negb (X86ONLY (globals o)) then
    Parsed (with_globals (set_X64ONLY true) o)
  else Invalid (MKException ("Invalid command line option '" ++ opt ++ "'")).

(** [for opt, arg in options: ...] *)
Fixpoint parse_loop (options : list (string * string)) (o : Options) : parse_result :=
  match options with
  | [] => Parsed o
  | (opt, arg) :: rest =>
      match parse_option opt arg o with
      | Parsed o' => parse_loop rest o'
      | r => r
      end
  end.

(** [parse_options()], given what [getopt.gnu_getopt] made of the command
    line: the loop, then [set_build_dir(path)]. *)
Definition parse_options (options : list (string * string)) (w : world)
  : parse_result * world :=
  match parse_loop options initial_options with
  | Parsed o =>
      match set_build_dir (path o) w with
      | Ok archs w' => (Parsed (with_globals (set_ARCHS archs) o), w')
      | Raise e w' => (Invalid e, w')
      end
  | r => (r, w)
  end.

(** An option of the given name is on the command line. *)
Definition given (name : string) (options : list (string * string)) : bool :=
  existsb (fun oa => String.eqb (fst oa) name) options.

(** The argument of the last [-b]/[--build], or the default. *)
Fixpoint build_arg (options : list (string * string)) (default : string) : string :=
  match options with
  | [] => default
  | (opt, arg) :: rest =>
      build_arg rest (if opt_in opt "-b" "--build" then arg else default)
  end.

(** Two only-flags of which the later is refused once the first is set. *)
Definition refused_after (first later : string) : bool :=
  (String.eqb first "--x86-only"
   && (String.eqb later "--x64-only" || String.eqb later "--arm64-only"))
  || (String.eqb first "--x64-only"
      && (String.eqb later "--x86-only" || String.eqb later "--arm64-only")).

(** The architecture [main] builds alone, by the order of its tests:
    [X86ONLY] first, then [X64ONLY], then [ARM64ONLY]. *)
Definition single_scope (cfg : Config) : option string :=
  if X86ONLY cfg then Some "x86"
  else if X64ONLY cfg then Some "x64"
  else if ARM64ONLY cfg then Some "arm64"
  else None.

(** The commands of the configure session when no revision is included. *)
Definition plain_configure_cmds (cfg : Config) (arch build_path : string) : list string :=
  ["cd " ++ build_path;
   vcvarsall_2022 ++ (if String.eqb arch "arm64" then "amd64_arm64" else arch);
   Str.join (cmake_head cfg ++ cmake_tail DIST_DIR)].

(** How a procedure ends by the status of its session: normally on status
    0, with [MKException msg] on any other status and when the call itself
    raises. *)
Definition session_outcome (msg : string) (r : option (Z * gmap string node)) : option exn :=
  match r with
  | Some (status, _) => if (status =? 0)%Z then None else Some (MKException msg)
  | None => Some (MKException msg)
  end.

Module SampleScope.

(** What [--arm64-only --x86-only] leaves in the globals: both flags set. *)
Definition cfg_x86_arm64 : Config :=
  {| ARCHS := registry "build-dist"; FORCE_MK := false; ASSEMBLY_VERSION := None;
     DOTNET_CORE_ENABLED := true; JAVA_ENABLED := true; ZIP_BUILD_OUTPUTS := false;
     GIT_HASH := false; PYTHON_ENABLED := true;
     X86ONLY := true; X64ONLY := false; ARM64ONLY := true |}.

(** Not a Windows host. *)
Definition env_posix : Env :=
  {| os_name := "posix"; environ := Sample.vc_environ;
     shell := fun _ f => Some (0%Z, f); proc := Sample.git_one_ref |}.

End SampleScope.

(** ** The names the locator accepts *)

(** The stems of the four patterns of [VS_RUNTIME_PATS]. *)
Definition VS_RUNTIME_STEMS : list string := ["vcomp"; "msvcp"; "msvcr"; "vcrun"].

(** The name ends in [.dll], in upper case, lower case or a mix of the two. *)
Definition ends_in_dll (name : string) : Prop :=
  exists (pre : string) (a b c : ascii),
    name = pre ++ String "."%char (String a (String b (String c ""))) /\
    (a = "d"%char \/ a = "D"%char) /\
    (b = "l"%char \/ b = "L"%char) /\
    (c = "l"%char \/ c = "L"%char).

(** The name starts with the stem, and [.dll], in lower case, comes after it,
    with no newline between the two; anything may follow. *)
Definition stem_then_dll (stem name : string) : Prop :=
  exists mid rest, name = stem ++ mid ++ ".dll" ++ rest /\ has_char Str.nl mid = false.

(** ** The entry point, with the command line *)

(** How a run of the script ends: [main] returned or raised, or
    [display_help] left through [exit]. *)
Inductive run_result : Type :=
| Finished (r : result unit)
| Exited (code : Z) (w : world).

(** [main()] in full, given what [getopt.gnu_getopt] made of the command
    line: the test of [os.name], then [parse_options()], then, with the
    globals that [parse_options] has set, [check_vc_cmd_prompt()] and the
    builds.  From [check_vc_cmd_prompt()] on this is [main] above. *)
Definition main_script (env : Env) (options : list (string * string)) (w : world)
  : run_result :=
  if negb (String.eqb (os_name env) "nt") then
    Finished (Raise (MKException "This script is for Windows only") w)
  else
    match parse_options options w with
    | (Parsed o, w1) =>
        let cfg := globals o in
        Finished
          ((check_vc_cmd_prompt env ;;
            if X86ONLY cfg then build_for_arch env cfg "x86"
            else if X64ONLY cfg then build_for_arch env cfg "x64"
            else if ARM64ONLY cfg then build_for_arch env cfg "arm64"
            else
              mk_build_dirs env cfg ;;
              mk_z3s env cfg ;;
              cp_licenses env cfg ;;
              cp_vs_runtimes env cfg ;;
              if ZIP_BUILD_OUTPUTS cfg then mk_zips env cfg else mret tt) w1)
    | (Invalid e, w1) => Finished (Raise e w1)
    | (SystemExit code, w1) => Exited code w1
    end.

(** A directory was made. *)
Definition is_makedirs (ev : event) : bool :=
  match ev with EvMakedirs _ => true | _ => false end.

Module SampleGuards.

(** A Windows host on which [cl] cannot be started. *)
Definition env_no_cl : Env :=
  {| os_name := "nt"; environ := Sample.vc_environ;
     shell := fun _ f => Some (0%Z, f);
     proc := fun cmd => match cmd with
                        | ["cl"] => None
                        | _ => Sample.git_one_ref cmd
                        end |}.

End SampleGuards.

(** ** When the archive is opened *)

(** * Reasoning about computations *)

Lemma bind_unfold {A B : Type} (m : M A) (f : A -> M B) (w : world) :
  (m ≫= f) w = match m w with
               | Ok a w' => f a w'
               | Raise e w' => Raise e w'
               end.
Proof. reflexivity. Qed.

Lemma for_each_app {A : Type} (l1 l2 : list A) (body : A -> M unit) (w : world) :
  for_each (l1 ++ l2)%list body w =
  match for_each l1 body w with
  | Ok _ w1 => for_each l2 body w1
  | Raise e w1 => Raise e w1
  end.
Proof.
  revert w. induction l1 as [|x l1 IH]; intros w; simpl.
  - reflexivity.
  - rewrite !bind_unfold. destruct (body x w) as [[] w1|e w1]; [apply IH | reflexivity].
Qed.

(** A loop stops at the first iteration that raises: what comes after it in
    the list is never run. *)
Lemma for_each_raise {A : Type} (pre post : list A) (k : A) (body : A -> M unit)
    (w w1 w' : world) (e : exn) :
  for_each pre body w = Ok tt w1 ->
  body k w1 = Raise e w' ->
  for_each (pre ++ k :: post)%list body w = Raise e w'.
Proof.
  intros Hpre Hk. rewrite for_each_app, Hpre. simpl. rewrite bind_unfold, Hk. reflexivity.
Qed.

(** ** Frame conditions: what a computation leaves related *)


Section Respects.

Context (R : world -> world -> Prop) `{!Reflexive R} `{!Transitive R}.

Lemma respects_ret {A : Type} (a : A) : respects R (mret a : M A).
Proof. intros w. simpl. reflexivity. Qed.

Lemma respects_raise {A : Type} (e : exn) : respects R (raise e : M A).
Proof. intros w. simpl. reflexivity. Qed.

Lemma respects_get : respects R get_world.
Proof. intros w. simpl. reflexivity. Qed.

Lemma respects_bind {A B : Type} (m : M A) (f : A -> M B) :
  respects R m -> (forall a, respects R (f a)) -> respects R (m ≫= f).
Proof.
  intros Hm Hf w. rewrite bind_unfold. specialize (Hm w).
  destruct (m w) as [a w1|e w1]; simpl in *.
  - etransitivity; [exact Hm | apply Hf].
  - exact Hm.
Qed.

Lemma respects_try {A : Type} (m : M A) (h : exn -> M A) :
  respects R m -> (forall e, respects R (h e)) -> respects R (try_except m h).
Proof.
  intros Hm Hh w. unfold try_except. specialize (Hm w).
  destruct (m w) as [a w1|e w1]; simpl in *.
  - exact Hm.
  - etransitivity; [exact Hm | apply Hh].
Qed.

Lemma respects_for_each {A : Type} (l : list A) (body : A -> M unit) :
  (forall x, respects R (body x)) -> respects R (for_each l body).
Proof.
  intros Hb. induction l as [|x l IH]; simpl.
  - apply respects_ret.
  - apply respects_bind; [apply Hb | intros _; exact IH].
Qed.

End Respects.


#[global] Instance same_calls_refl : Reflexive same_calls.
Proof. intros w. reflexivity. Qed.
#[global] Instance same_calls_trans : Transitive same_calls.
Proof. intros a b c H1 H2. unfold same_calls in *. congruence. Qed.
#[global] Instance same_cwd_refl : Reflexive same_cwd.
Proof. intros w. reflexivity. Qed.
#[global] Instance same_cwd_trans : Transitive same_cwd.
Proof. intros a b c H1 H2. unfold same_cwd in *. congruence. Qed.
#[global] Instance adds_only_refl p : Reflexive (adds_only p).
Proof. intros w. exists []. split; [by rewrite app_nil_r | reflexivity]. Qed.
#[global] Instance adds_only_trans p : Transitive (adds_only p).
Proof.
  intros a b c (e1 & H1 & F1) (e2 & H2 & F2). exists (e1 ++ e2)%list. split.
  - rewrite H2, H1. by rewrite <- app_assoc.
  - rewrite forallb_app, F1, F2. reflexivity.
Qed.

Lemma adds_only_filter_false (p q : event -> bool) (w w' : world) :
  (forall ev, p ev = true -> q ev = false) ->
  adds_only p w w' -> List.filter q (trace w') = List.filter q (trace w).
Proof.
  intros Hpq (evs & -> & Hall). rewrite List.filter_app.
  replace (List.filter q evs) with (@nil event); [by rewrite app_nil_r |].
  induction evs as [|ev evs IH]; [reflexivity |]. simpl in *.
  apply andb_true_iff in Hall as [Hp Hall]. rewrite (Hpq _ Hp). by apply IH.
Qed.

Lemma same_calls_log ev : respects same_calls (log ev).
Proof. intros w. reflexivity. Qed.
Lemma same_calls_set_fs f : respects same_calls (set_fs f).
Proof. intros w. reflexivity. Qed.
Lemma same_calls_set_cwd d : respects same_calls (set_cwd d).
Proof. intros w. reflexivity. Qed.

Lemma same_cwd_log ev : respects same_cwd (log ev).
Proof. intros w. reflexivity. Qed.
Lemma same_cwd_set_fs f : respects same_cwd (set_fs f).
Proof. intros w. reflexivity. Qed.
Lemma same_cwd_enter st a : respects same_cwd (enter st a).
Proof. intros w. reflexivity. Qed.

Lemma adds_only_log p ev : p ev = true -> respects (adds_only p) (log ev).
Proof. intros H w. exists [ev]. simpl. by rewrite H. Qed.
Lemma adds_only_set_fs p f : respects (adds_only p) (set_fs f).
Proof. intros w. exists []. simpl. by rewrite app_nil_r. Qed.
Lemma adds_only_set_cwd p d : respects (adds_only p) (set_cwd d).
Proof. intros w. exists []. simpl. by rewrite app_nil_r. Qed.
Lemma adds_only_enter p st a : respects (adds_only p) (enter st a).
Proof. intros w. exists []. simpl. by rewrite app_nil_r. Qed.

Create HintDb frame discriminated.
#[global] Hint Resolve same_calls_log same_calls_set_fs same_calls_set_cwd
  same_cwd_log same_cwd_set_fs same_cwd_enter
  adds_only_set_fs adds_only_set_cwd adds_only_enter : frame.

(** Decompose a frame goal along the structure of the computation. *)
Ltac frame_step :=
  match goal with
  | |- respects _ (mret _) => apply respects_ret; try typeclasses eauto
  | |- respects _ (raise _) => apply respects_raise; try typeclasses eauto
  | |- respects _ get_world => apply respects_get; try typeclasses eauto
  | |- respects _ (_ ≫= _) => apply respects_bind; try typeclasses eauto; [| intros ?]
  | |- respects _ (try_except _ _) => apply respects_try; try typeclasses eauto; [| intros ?]
  | |- respects _ (for_each _ _) => apply respects_for_each; try typeclasses eauto; intros ?
  | |- respects (adds_only _) (log _) => apply adds_only_log; reflexivity
  | |- respects _ (match ?x with _ => _ end) => destruct x
  | |- respects _ (let _ := _ in _) => cbv zeta
  | |- respects _ _ => solve [eauto with frame]
  end.
Ltac frame := repeat frame_step.

Section Frames.

Variable env : Env.
Variable cfg : Config.


Lemma same_calls_get_git_hash : respects same_calls (get_git_hash env).
Proof. unfold get_git_hash, check_output. frame. Qed.

Lemma same_calls_exec_cmds cmds : respects same_calls (exec_cmds env cmds).
Proof.
  unfold exec_cmds, FS.open_w, FS.write, subprocess_call, os_erase. frame.
Qed.

End Frames.

(** ** Exact descriptions of the procedures *)

Lemma add_events_nil (w : world) : add_events w [] = w.
Proof. destruct w. unfold add_events. simpl. by rewrite app_nil_r. Qed.

Lemma add_events_app (w : world) (e1 e2 : list event) :
  add_events (add_events w e1) e2 = add_events w (e1 ++ e2)%list.
Proof. unfold add_events. simpl. by rewrite <- app_assoc. Qed.

Section Procedures.

Variable env : Env.
Variable cfg : Config.

(** [get_git_hash] only asks the outside: it raises or returns by what the
    two queries answer, and leaves nothing but their trace. *)
Lemma get_git_hash_eq (w : world) :
  get_git_hash env w =
  match snd (git_query env) with
  | None =>
      Raise (MKException "Failed to retrieve git hash") (add_events w (fst (git_query env)))
  | Some r =>
      if negb (List.length (Str.split " "%char r) =? 2)%nat
      then Raise (MKException ("Unexpected git output " ++ r))
             (add_events w (fst (git_query env)))
      else Ok (nth 0 (Str.split " "%char r) "") (add_events w (fst (git_query env)))
  end.
Proof.
  unfold get_git_hash, git_query, check_output, try_except.
  rewrite !bind_unfold.
  destruct (proc env ["git"; "rev-parse"; "--abbrev-ref"; "HEAD"]) as [out1|]; simpl.
  - destruct (proc env ["git"; "show-ref"; "--abbrev=12"; "refs/heads/" ++ Str.rstrip_crlf out1])
      as [out2|]; simpl.
    + unfold add_events. simpl. rewrite <- app_assoc. simpl.
      destruct (negb _); reflexivity.
    + reflexivity.
  - by rewrite add_events_nil.
Qed.

Lemma git_query_prepare : forallb is_prepare (fst (git_query env)) = true.
Proof.
  unfold git_query.
  destruct (proc env ["git"; "rev-parse"; "--abbrev-ref"; "HEAD"]) as [out1|]; [|reflexivity].
  destruct (proc env ["git"; "show-ref"; "--abbrev=12"; "refs/heads/" ++ Str.rstrip_crlf out1]);
    reflexivity.
Qed.

Lemma get_z3_name_eq (arch : string) (w : world) :
  get_z3_name env cfg arch w =
  if GIT_HASH cfg then
    match get_git_hash env w with
    | Ok h w' => Ok (dist_name (release_version cfg) (Some h) arch) w'
    | Raise e w' => Raise e w'
    end
  else Ok (dist_name (release_version cfg) None arch) w.
Proof.
  unfold get_z3_name, dist_name, release_version.
  destruct (GIT_HASH cfg); [|reflexivity].
  rewrite bind_unfold. destruct (get_git_hash env w); reflexivity.
Qed.

End Procedures.

Lemma string_app_nil_r (s : string) : s ++ "" = s.
Proof.
  induction s as [|c s IH]; [reflexivity |].
  change (String c s ++ "") with (String c (s ++ "")). by rewrite IH.
Qed.

Lemma string_app_assoc (a b c : string) : (a ++ b) ++ c = a ++ b ++ c.
Proof.
  induction a as [|x a IH]; [reflexivity |].
  change ((String x a ++ b) ++ c) with (String x ((a ++ b) ++ c)). by rewrite IH.
Qed.

Lemma join_cons (x : string) (l : list string) : Str.join (x :: l) = x ++ Str.join l.
Proof.
  unfold Str.join. destruct l as [|y l]; simpl; [by rewrite string_app_nil_r | reflexivity].
Qed.

Lemma join_app (l1 l2 : list string) : Str.join (l1 ++ l2)%list = Str.join l1 ++ Str.join l2.
Proof.
  induction l1 as [|x l1 IH]; [reflexivity |].
  change ((x :: l1) ++ l2)%list with (x :: (l1 ++ l2))%list.
  by rewrite !join_cons, IH, string_app_assoc.
Qed.

Lemma script_text_cons (cmd : string) (cmds : list string) :
  script_text (cmd :: cmds) = cmd ++ Str.newline ++ script_text cmds.
Proof. unfold script_text. simpl map. by rewrite join_cons, string_app_assoc. Qed.

Section Executor.

Variable env : Env.

(** The write loop of [exec_cmds], started on a script that holds [c]. *)
Lemma write_loop (cmds : list string) : forall (w : world) (c : string),
  fs w !! FS.resolve w "z3_tmp.cmd" = Some (NFile c) ->
  for_each cmds (fun cmd => FS.write "z3_tmp.cmd" cmd ;; FS.write "z3_tmp.cmd" Str.newline) w
  = Ok tt (World (<[FS.resolve w "z3_tmp.cmd" := NFile (c ++ script_text cmds)]> (fs w))
             (cwd w) (trace w ++ script_writes cmds) (calls w)).
Proof.
  induction cmds as [|cmd cmds IH]; intros w c Hc.
  - simpl. unfold script_text. simpl. rewrite string_app_nil_r, app_nil_r.
    rewrite insert_id by exact Hc. by destruct w.
  - cbn [for_each]. rewrite bind_unfold.
    unfold FS.write at 1 2. rewrite !bind_unfold. simpl. rewrite Hc.
    unfold FS.resolve at 3. simpl.
    change (if FS.isabs "z3_tmp.cmd" then "z3_tmp.cmd" else Path.join (cwd w) "z3_tmp.cmd")
      with (FS.resolve w "z3_tmp.cmd").
    rewrite lookup_insert_eq, insert_insert_eq.
    erewrite IH; [|simpl; unfold FS.resolve; simpl; apply lookup_insert_eq].
    simpl. unfold FS.resolve. simpl. rewrite insert_insert_eq.
    rewrite script_text_cons, !string_app_assoc, <- !app_assoc. reflexivity.
Qed.

(** [exec_cmds] where the script can be opened: the script gets every
    command followed by a newline, the session runs over that text, and the
    status is the session's, or 1 when the call itself raises. *)
Lemma exec_cmds_eq (cmds : list string) (w : world) :
  FS.isdir w "z3_tmp.cmd" = false ->
  exec_cmds env cmds w =
  let fs1 := <[FS.resolve w "z3_tmp.cmd" := NFile (script_text cmds)]> (fs w) in
  let tr1 := (trace w ++ EvOpen "z3_tmp.cmd" :: script_writes cmds)%list in
  match shell env (script_text cmds) fs1 with
  | Some (status, fs') =>
      Ok status (World fs' (cwd w) (tr1 ++ [EvCall "z3_tmp.cmd" (script_text cmds)]) (calls w))
  | None => Ok 1%Z (World fs1 (cwd w) tr1 (calls w))
  end.
Proof.
  intros Hdir. unfold exec_cmds. rewrite bind_unfold.
  unfold FS.open_w. rewrite bind_unfold. simpl. rewrite Hdir. simpl.
  rewrite bind_unfold.
  erewrite write_loop; [|simpl; unfold FS.resolve; simpl; apply lookup_insert_eq].
  simpl. unfold FS.resolve at 1 2. simpl. rewrite insert_insert_eq.
  rewrite bind_unfold. unfold try_except at 1, subprocess_call. rewrite bind_unfold. simpl.
  unfold FS.read, FS.resolve. simpl. rewrite lookup_insert_eq.
  change ("" ++ script_text cmds) with (script_text cmds).
  rewrite <- app_assoc. change ([EvOpen "z3_tmp.cmd"] ++ script_writes cmds)%list
    with (EvOpen "z3_tmp.cmd" :: script_writes cmds).
  destruct (shell env (script_text cmds) _) as [[status fs']|]; reflexivity.
Qed.

End Executor.

(** ** Frames of the procedures *)

Ltac unfold_prims :=
  unfold mk_dir, check_output, subprocess_call, os_erase, get_build_dir, subscript, unbound,
    FS.makedirs, FS.open_w, FS.write, FS.chdir, FS.chdir_back, FS.copy, FS.zip_open,
    FS.zip_write.

Ltac unfold_procs :=
  unfold mk_build_dir, mk_z3, cp_license, cp_vs_runtime, mk_zip, configure_cmds, cmake_cmd,
    get_z3_name, exec_cmds, get_git_hash.

Ltac stage_frame := unfold_procs; unfold_prims; frame.

Lemma calls_after_enter (st : stage) (a : string) (body : M unit) (w : world) :
  respects same_calls body ->
  calls (result_world ((enter st a ;; body) w)) = (calls w ++ [(st, a)])%list.
Proof. intros H. rewrite bind_unfold. simpl. apply H. Qed.

Section StageFrames.

Variable env : Env.
Variable cfg : Config.

(** Every procedure of the pipeline leaves exactly one entry in the ghost
    log, whether it returns or raises. *)
Lemma mk_build_dir_calls arch w :
  calls (result_world (mk_build_dir env cfg arch w)) = (calls w ++ [(Configure, arch)])%list.
Proof. unfold mk_build_dir. apply calls_after_enter. stage_frame. Qed.

Lemma mk_z3_calls arch w :
  calls (result_world (mk_z3 env cfg arch w)) = (calls w ++ [(Install, arch)])%list.
Proof. unfold mk_z3. apply calls_after_enter. stage_frame. Qed.

Lemma cp_license_calls arch w :
  calls (result_world (cp_license env cfg arch w)) = (calls w ++ [(License, arch)])%list.
Proof. unfold cp_license. apply calls_after_enter. stage_frame. Qed.

Lemma cp_vs_runtime_calls arch w :
  calls (result_world (cp_vs_runtime env cfg arch w)) = (calls w ++ [(Runtime, arch)])%list.
Proof. unfold cp_vs_runtime. apply calls_after_enter. stage_frame. Qed.

Lemma mk_zip_calls arch w :
  calls (result_world (mk_zip env cfg arch w)) = (calls w ++ [(Archive, arch)])%list.
Proof. unfold mk_zip. apply calls_after_enter. stage_frame. Qed.






(** Only [mk_zip] changes the working directory. *)
Lemma mk_build_dir_cwd arch : respects same_cwd (mk_build_dir env cfg arch).
Proof. stage_frame. Qed.

Lemma mk_z3_cwd arch : respects same_cwd (mk_z3 env cfg arch).
Proof. stage_frame. Qed.



Lemma mk_dir_prepare d : respects (adds_only is_prepare) (mk_dir d).
Proof. unfold_prims. frame. Qed.

End StageFrames.

(** A loop over the architectures enters its procedure once for each, in
    order. *)
Lemma for_each_calls (st : stage) (f : string -> M unit) (l : list string) :
  (forall a w, calls (result_world (f a w)) = (calls w ++ [(st, a)])%list) ->
  forall w w', for_each l f w = Ok tt w' ->
  calls w' = (calls w ++ stage_calls st l)%list.
Proof.
  intros Hf. induction l as [|a l IH]; intros w w' H; simpl in H.
  - injection H as <-. simpl. by rewrite app_nil_r.
  - rewrite bind_unfold in H. specialize (Hf a w).
    destruct (f a w) as [[] w1|e w1]; [|discriminate]. simpl in Hf.
    rewrite (IH _ _ H), Hf, <- app_assoc. reflexivity.
Qed.

(** Stepping through a computation. *)
Lemma bind_ret {A B : Type} (a : A) (f : A -> M B) (w : world) : (mret a ≫= f) w = f a w.
Proof. reflexivity. Qed.
Lemma bind_raise {A B : Type} (e : exn) (f : A -> M B) (w : world) :
  (raise e ≫= f) w = Raise e w.
Proof. reflexivity. Qed.
Lemma bind_get {B : Type} (f : world -> M B) (w : world) : (get_world ≫= f) w = f w w.
Proof. reflexivity. Qed.
Lemma bind_enter {B : Type} (st : stage) (a : string) (f : unit -> M B) (w : world) :
  (enter st a ≫= f) w = f tt (World (fs w) (cwd w) (trace w) (calls w ++ [(st, a)])).
Proof. reflexivity. Qed.
Lemma bind_assoc {A B C : Type} (m : M A) (f : A -> M B) (g : B -> M C) (w : world) :
  ((m ≫= f) ≫= g) w = (m ≫= fun a => f a ≫= g) w.
Proof. rewrite !bind_unfold. destruct (m w); reflexivity. Qed.

(** * The workspace state tracker *)

Section Workspace.

Variable env : Env.
Variable cfg : Config.

(** On a configured workspace, without [--force], [mk_build_dir] returns at
    once: nothing is created, written or run. *)
Lemma mk_build_dir_skip (arch build_path : string) (w : world) :
  assoc arch (ARCHS cfg) = Some build_path ->
  check_build_dir w build_path = true ->
  FORCE_MK cfg = false ->
  mk_build_dir env cfg arch w =
  Ok tt (World (fs w) (cwd w) (trace w) (calls w ++ [(Configure, arch)])).
Proof.
  intros Ha Hc Hf. unfold mk_build_dir, subscript.
  rewrite bind_enter, Ha, bind_ret, bind_get.
  change (check_build_dir (World (fs w) (cwd w) (trace w) (calls w ++ [(Configure, arch)]))
            build_path) with (check_build_dir w build_path).
  rewrite Hc, Hf. reflexivity.
Qed.

(** C8. [mk_build_dir] (the specification's ensureWorkspace) is idempotent on
    a configured workspace: with the directory and its [Makefile] in place
    and no forced reconfiguration, a call, and a second call after it,
    return normally, leave the filesystem, the working directory and the
    trace of effects exactly as they were (so no configure session is run:
    the step is skipped), and the workspace is still configured. *)
Theorem mk_build_dir_idempotent (arch build_path : string) (w : world) :
  assoc arch (ARCHS cfg) = Some build_path ->
  check_build_dir w build_path = true ->
  FORCE_MK cfg = false ->
  exists w1 w2,
    mk_build_dir env cfg arch w = Ok tt w1 /\
    mk_build_dir env cfg arch w1 = Ok tt w2 /\
    (fs w1 = fs w /\ cwd w1 = cwd w /\ trace w1 = trace w) /\
    (fs w2 = fs w1 /\ cwd w2 = cwd w1 /\ trace w2 = trace w1) /\
    check_build_dir w2 build_path = true.
Proof.
  intros Ha Hc Hf.
  eexists _, _. split; [apply (mk_build_dir_skip _ _ _ Ha Hc Hf) |].
  split; [apply (mk_build_dir_skip _ _ _ Ha); [exact Hc | exact Hf] |].
  simpl. repeat split; try reflexivity. exact Hc.
Qed.

End Workspace.

Lemma mk_build_dir_idempotent_witness :
  exists w1 w2,
    mk_build_dir Sample.env_ok Sample.cfg_x64 "x64" (Sample.start Sample.fs_x64) = Ok tt w1 /\
    mk_build_dir Sample.env_ok Sample.cfg_x64 "x64" w1 = Ok tt w2 /\
    (fs w1 = Sample.fs_x64 /\ cwd w1 = "" /\ trace w1 = []) /\
    (fs w2 = fs w1 /\ cwd w2 = cwd w1 /\ trace w2 = trace w1) /\
    check_build_dir w2 "build-dist\x64" = true.
Proof.
  apply (mk_build_dir_idempotent Sample.env_ok Sample.cfg_x64 "x64" "build-dist\x64"
           (Sample.start Sample.fs_x64)); vm_compute; reflexivity.
Defined.

(** * Revision resolution and the configure commands *)

Section Configure.

Variable env : Env.
Variable cfg : Config.

Lemma mk_dir_exists (d : string) (w : world) :
  FS.exists_ w d = true -> mk_dir d w = Ok tt w.
Proof. intros H. unfold mk_dir. rewrite bind_get, H. reflexivity. Qed.

Lemma get_git_hash_unresolvable (w : world) :
  revision_unresolvable env ->
  exists msg, get_git_hash env w = Raise (MKException msg) (add_events w (fst (git_query env))).
Proof.
  unfold revision_unresolvable. intros H. rewrite get_git_hash_eq.
  destruct (snd (git_query env)) as [r|]; [|eauto].
  apply Nat.eqb_neq in H. rewrite H. simpl. eauto.
Qed.

Lemma get_git_hash_ok (w w' : world) (h : string) :
  get_git_hash env w = Ok h w' <->
  resolved_hash env = Some h /\ w' = add_events w (fst (git_query env)).
Proof.
  rewrite get_git_hash_eq. unfold resolved_hash.
  destruct (snd (git_query env)) as [r|]; [|split; [discriminate | intros [? _]; discriminate]].
  destruct (List.length (Str.split " "%char r) =? 2)%nat; simpl.
  - split; [intros [= <- <-]; auto | intros [[= <-] ->]; reflexivity].
  - split; [discriminate | intros [? _]; discriminate].
Qed.

(** With the revision requested and unresolvable, building the [cmake]
    command raises, whatever the world, having done nothing but query. *)
Lemma cmake_cmd_unresolvable (install_path : string) (w : world) :
  GIT_HASH cfg = true ->
  revision_unresolvable env ->
  exists msg, cmake_cmd env cfg install_path w
              = Raise (MKException msg) (add_events w (fst (git_query env))).
Proof.
  intros Hg Hu. unfold cmake_cmd. rewrite Hg.
  destruct (get_git_hash_unresolvable w Hu) as [msg Hm].
  exists msg. rewrite !bind_unfold, Hm. reflexivity.
Qed.

(** C7 (amended). If the revision is to be included ([--githash]) and it
    cannot be resolved (a git query cannot be run, or the output of
    [show-ref] does not split into exactly a hash and a ref name, as when no
    ref is printed), then
    wherever [mk_build_dir] has to configure (the workspace is not configured,
    or [--force] is given) it raises while the configure command is being
    built: up to that point it has at most created the workspace directory
    and queried git, so no script was written and no toolchain session was
    run.  With the workspace directory in place the error is the
    [MKException] of [get_git_hash]. *)
Theorem mk_build_dir_unresolvable_revision (arch build_path : string) (w : world) :
  assoc arch (ARCHS cfg) = Some build_path ->
  GIT_HASH cfg = true ->
  check_build_dir w build_path = false \/ FORCE_MK cfg = true ->
  revision_unresolvable env ->
  exists e w',
    mk_build_dir env cfg arch w = Raise e w' /\
    adds_only is_prepare w w' /\
    (forall script text, In (EvCall script text) (trace w') -> In (EvCall script text) (trace w)) /\
    (FS.exists_ w build_path = true -> exists msg, e = MKException msg).
Proof.
  intros Ha Hg Hcond Hu.
  assert (Hnocall : forall w', adds_only is_prepare w w' ->
            forall script text, In (EvCall script text) (trace w') ->
                                In (EvCall script text) (trace w)).
  { intros w' (evs & -> & Hall) script text Hin. apply in_app_or in Hin as [Hin|Hin]; [exact Hin |].
    rewrite forallb_forall in Hall. specialize (Hall _ Hin). discriminate. }
  unfold mk_build_dir, subscript.
  rewrite bind_enter, Ha, bind_ret, bind_get.
  set (w1 := World (fs w) (cwd w) (trace w) (calls w ++ [(Configure, arch)])).
  change (check_build_dir w1 build_path) with (check_build_dir w build_path).
  replace (negb (check_build_dir w build_path) || FORCE_MK cfg) with true
    by (destruct Hcond as [-> | ->]; [reflexivity | by rewrite orb_true_r]).
  rewrite bind_unfold.
  pose proof (mk_dir_prepare build_path w1) as Hmk.
  pose proof (mk_dir_exists build_path w1) as Hex.
  destruct (mk_dir build_path w1) as [[] w2|e w2]; simpl in Hmk.
  - unfold configure_cmds. rewrite bind_unfold, bind_unfold.
    destruct (cmake_cmd_unresolvable DIST_DIR w2 Hg Hu) as [msg Hm]. rewrite Hm.
    assert (Hadd : adds_only is_prepare w (add_events w2 (fst (git_query env)))).
    { destruct Hmk as (evs & Htr & Hall). exists (evs ++ fst (git_query env))%list. split.
      - simpl. rewrite Htr. simpl. by rewrite <- app_assoc.
      - by rewrite forallb_app, Hall, git_query_prepare. }
    eexists _, _. split; [reflexivity |]. split; [exact Hadd |].
    split; [apply Hnocall, Hadd | eauto].
  - eexists _, _. split; [reflexivity |]. split; [exact Hmk |].
    split; [apply Hnocall, Hmk |]. intros Hx. specialize (Hex Hx). discriminate.
Qed.

End Configure.

Lemma mk_build_dir_unresolvable_revision_witness :
  exists e w',
    mk_build_dir Sample.env_no_ref Sample.cfg_githash "x86" (Sample.start Sample.fs_x64)
    = Raise e w' /\
    adds_only is_prepare (Sample.start Sample.fs_x64) w' /\
    (forall script text, In (EvCall script text) (trace w') -> In (EvCall script text) []) /\
    (FS.exists_ (Sample.start Sample.fs_x64) "build-dist\x86" = true ->
     exists msg, e = MKException msg).
Proof.
  apply (mk_build_dir_unresolvable_revision Sample.env_no_ref Sample.cfg_githash
           "x86" "build-dist\x86" (Sample.start Sample.fs_x64)).
  - reflexivity.
  - reflexivity.
  - left. vm_compute. reflexivity.
  - vm_compute. intros H. discriminate H.
Defined.

(** On a configured workspace no configure command is built: with the
    revision requested and no ref printed, [mk_build_dir] returns normally,
    the install session runs, and the error comes only when [cp_license]
    forms the name of the distribution. *)
Lemma configured_workspace_fails_late :
  let env := Sample.env_no_ref in
  let cfg := Sample.cfg_githash in
  let w := Sample.start Sample.fs_x64 in
  let r := build_for_arch env cfg "x64" w in
  GIT_HASH cfg = true /\
  revision_unresolvable env /\
  outcome (mk_build_dir env cfg "x64" w) = None /\
  outcome r = Some (MKException "Unexpected git output ") /\
  calls (result_world r) = [(Configure, "x64"); (Install, "x64"); (License, "x64")] /\
  List.filter is_call (trace (result_world r)) =
  [EvCall "z3_tmp.cmd"
     ("call " ++ Str.dquote ++ "%VCINSTALLDIR%Auxiliary\build\vcvarsall.bat" ++ Str.dquote
      ++ " x64" ++ Str.newline
      ++ "cd build-dist\x64" ++ Str.newline
      ++ "nmake install" ++ Str.newline)].
Proof.
  intros env cfg w r. split; [reflexivity |]. split; [vm_compute; discriminate |].
  repeat split; vm_compute; reflexivity.
Qed.

(** * The configure command and the optional components *)

Section Flags.

Variable env : Env.


(** The pieces of the [cmake] command in terms of the head, the resolved
    revision and the tail. *)
Lemma cmake_cmd_eq (cfg : Config) (install_path : string) (w : world) :
  cmake_cmd env cfg install_path w =
  if GIT_HASH cfg then
    match get_git_hash env w with
    | Ok h w' =>
        Ok (cmake_head cfg ++ [(" -DGIT_HASH=" ++ h)%string] ++ cmake_tail install_path)%list w'
    | Raise e w' => Raise e w'
    end
  else Ok (cmake_head cfg ++ cmake_tail install_path)%list w.
Proof.
  unfold cmake_cmd. destruct (GIT_HASH cfg).
  - rewrite !bind_unfold. destruct (get_git_hash env w); [|reflexivity].
    simpl. by rewrite <- app_assoc.
  - reflexivity.
Qed.



End Flags.



(** * Names and archives *)

Section Archive.

Variable env : Env.
Variable cfg : Config.

Lemma get_z3_name_ok (arch name : string) (w w' : world) :
  get_z3_name env cfg arch w = Ok name w' ->
  name = z3_name env cfg arch /\
  w' = (if GIT_HASH cfg then add_events w (fst (git_query env)) else w).
Proof.
  rewrite get_z3_name_eq. unfold z3_name. destruct (GIT_HASH cfg).
  - destruct (get_git_hash env w) as [h v|] eqn:E; [|discriminate].
    apply get_git_hash_ok in E as [-> ->]. intros [= <- <-]. auto.
  - intros [= <- <-]. auto.
Qed.

(** [mk_zip] in full: it returns normally whenever the architecture is
    registered and the name is resolved; what the [try] block managed to do
    is left in the world. *)
Lemma mk_zip_eq (arch : string) (w : world) :
  mk_zip env cfg arch w =
  let w1 := World (fs w) (cwd w) (trace w) (calls w ++ [(Archive, arch)]) in
  match assoc arch (ARCHS cfg) with
  | None => Raise (KeyError arch) w1
  | Some build_dir =>
      match get_z3_name env cfg arch w1 with
      | Ok name w2 => Ok tt (zip_outcome (Path.join build_dir DIST_DIR) (name ++ ".zip") w2)
      | Raise e w2 => Raise e w2
      end
  end.
Proof.
  unfold mk_zip, subscript. rewrite bind_enter. cbv zeta.
  destruct (assoc arch (ARCHS cfg)) as [build_dir|]; [|reflexivity].
  rewrite bind_ret, bind_unfold.
  destruct (get_z3_name env cfg arch _) as [name w2|e w2]; [|reflexivity].
  rewrite bind_get, bind_unfold. unfold try_except, zip_outcome.
  rewrite bind_unfold. unfold FS.chdir at 1. rewrite bind_get.
  destruct (FS.isdir w2 (Path.join build_dir DIST_DIR)) eqn:Ed; [|reflexivity].
  rewrite bind_unfold. simpl.
  rewrite bind_unfold. unfold FS.zip_open at 1. rewrite bind_get.
  match goal with |- context [FS.isdir ?v (name ++ ".zip")] =>
    destruct (FS.isdir v (name ++ ".zip")) eqn:Ez end; reflexivity.
Qed.


Lemma get_z3_name_not_pack (arch : string) :
  respects (adds_only (fun ev => negb (is_pack ev))) (get_z3_name env cfg arch).
Proof. stage_frame. Qed.

Lemma zip_outcome_trace (dist_dir zfname : string) (w : world) :
  exists evs,
    trace (zip_outcome dist_dir zfname w) = (trace w ++ evs)%list /\
    (List.filter is_pack evs = [] \/
     List.filter is_pack evs = [EvZipOpen zfname ZIP_DEFLATED]).
Proof.
  unfold zip_outcome. destruct (FS.isdir w dist_dir); simpl.
  - match goal with |- context [FS.isdir ?v zfname] => destruct (FS.isdir v zfname) end; simpl.
    + exists [EvChdir dist_dir; EvChdir (cwd w)]. rewrite <- app_assoc. auto.
    + exists [EvChdir dist_dir; EvZipOpen zfname ZIP_DEFLATED; EvChdir (cwd w)].
      rewrite <- !app_assoc. auto.
  - exists [EvChdir (cwd w)]. auto.
Qed.

Lemma in_filter_pack (ev : event) (l : list event) :
  is_pack ev = true -> In ev l -> In ev (List.filter is_pack l).
Proof. intros H Hin. apply filter_In. auto. Qed.

(** C5 (amended). For every version, architecture and optional revision
    hash, an archive that [mk_zip] opens is named
    [z3-<version>[.<revhash>]-<arch>-win.zip], the revision hash, when
    included, being joined to the version by a dot, and it is opened for
    deflate compression. *)
Theorem archive_name_scheme (arch path : string) (c : compression) (w : world) :
  In (EvZipOpen path c) (trace (result_world (mk_zip env cfg arch w))) ->
  ~ In (EvZipOpen path c) (trace w) ->
  c = ZIP_DEFLATED /\
  exists revhash,
    path = "z3-" ++ release_version cfg
           ++ match revhash with Some h => "." ++ h | None => "" end
           ++ "-" ++ arch ++ "-win" ++ ".zip" /\
    revhash = (if GIT_HASH cfg then resolved_hash env else None).
Proof.
  intros Hin Hnot. rewrite mk_zip_eq in Hin. cbv zeta in Hin.
  destruct (assoc arch (ARCHS cfg)) as [build_dir|]; [|contradiction].
  set (w1 := World (fs w) (cwd w) (trace w) (calls w ++ [(Archive, arch)])) in *.
  pose proof (get_z3_name_not_pack arch w1) as (evs1 & Htr1 & Hall1).
  assert (Hnot1 : ~ In (EvZipOpen path c) evs1).
  { intros Hc. rewrite forallb_forall in Hall1. specialize (Hall1 _ Hc). discriminate. }
  destruct (get_z3_name env cfg arch w1) as [name w2|e w2] eqn:En; simpl in *.
  - destruct (zip_outcome_trace (Path.join build_dir DIST_DIR) (name ++ ".zip") w2)
      as (evs2 & Htr2 & Hpack).
    rewrite Htr2, Htr1 in Hin.
    apply in_app_or in Hin as [Hin|Hin];
      [apply in_app_or in Hin as [Hin|Hin]; [contradiction | contradiction] |].
    apply (in_filter_pack (EvZipOpen path c) evs2 eq_refl) in Hin.
    destruct Hpack as [Hp|Hp]; rewrite Hp in Hin; [contradiction |].
    destruct Hin as [[= <- <-]|[]]. split; [reflexivity |].
    apply get_z3_name_ok in En as [-> _].
    exists (if GIT_HASH cfg then resolved_hash env else None). split; [|reflexivity].
    unfold z3_name, dist_name. by rewrite !string_app_assoc.
  - rewrite Htr1 in Hin. apply in_app_or in Hin as [Hin|Hin]; contradiction.
Qed.

End Archive.

Lemma archive_name_scheme_witness :
  ZIP_DEFLATED = ZIP_DEFLATED /\
  exists revhash,
    "z3-4.0123456789ab-x64-win.zip"
    = "z3-" ++ release_version Sample.cfg_githash
      ++ match revhash with Some h => "." ++ h | None => "" end
      ++ "-" ++ "x64" ++ "-win" ++ ".zip" /\
    revhash = (if GIT_HASH Sample.cfg_githash then resolved_hash Sample.env_ok else None).
Proof.
  apply (archive_name_scheme Sample.env_ok Sample.cfg_githash "x64"
           "z3-4.0123456789ab-x64-win.zip" ZIP_DEFLATED (Sample.start Sample.fs_x64)).
  - vm_compute. tauto.
  - simpl. tauto.
Defined.

(** With the revision included, the archive [mk_zip] opens has the hash
    after a dot; no archive of the name the specification gives is opened. *)
Lemma archive_name_not_dashed :
  List.filter is_pack
    (trace (result_world
       (mk_zip Sample.env_ok Sample.cfg_githash "x64" (Sample.start Sample.fs_x64))))
  = [EvZipOpen "z3-4.0123456789ab-x64-win.zip" ZIP_DEFLATED] /\
  spec_archive_name "4" (Some "0123456789ab") "x64" = "z3-4-0123456789ab-x64-win.zip" /\
  ~ In (EvZipOpen (spec_archive_name "4" (Some "0123456789ab") "x64") ZIP_DEFLATED)
      (trace (result_world
         (mk_zip Sample.env_ok Sample.cfg_githash "x64" (Sample.start Sample.fs_x64)))).
Proof.
  split; [vm_compute; reflexivity |]. split; [vm_compute; reflexivity |].
  vm_compute. intros H. repeat (destruct H as [H|H]; [discriminate H |]). exact H.
Qed.

(** * The command executor *)

Section ExecutorClaims.

Variable env : Env.

Lemma exec_cmds_blocked (cmds : list string) (w : world) :
  FS.isdir w "z3_tmp.cmd" = true ->
  exec_cmds env cmds w = Raise (OSError "IsADirectoryError") w.
Proof.
  intros H. unfold exec_cmds, FS.open_w. rewrite bind_unfold, bind_get, H. reflexivity.
Qed.

(** C10 (amended). Where the transient script can be opened for writing
    ([z3_tmp.cmd] is not a directory), the command executor does not raise:
    for every command list it writes each command, in order, followed by a
    newline, runs one session over that text, and returns the session's
    status and leaves its filesystem; if the call itself raises (the process
    cannot be started) it returns status 1, as a session that ran and ended
    with status 1 would, and no [EvCall] is in the trace.  The script is not
    removed. *)
Theorem exec_cmds_returns (cmds : list string) (w : world) :
  FS.isdir w "z3_tmp.cmd" = false ->
  exists status w',
    exec_cmds env cmds w = Ok status w' /\
    let script := FS.resolve w "z3_tmp.cmd" in
    let fs1 := <[script := NFile (script_text cmds)]> (fs w) in
    let written := (trace w ++ EvOpen "z3_tmp.cmd" :: script_writes cmds)%list in
    match shell env (script_text cmds) fs1 with
    | Some (st, fs') =>
        status = st /\ fs w' = fs' /\
        trace w' = (written ++ [EvCall "z3_tmp.cmd" (script_text cmds)])%list
    | None =>
        status = 1%Z /\ fs w' = fs1 /\ trace w' = written
    end /\
    cwd w' = cwd w /\ calls w' = calls w.
Proof.
  intros H. rewrite (exec_cmds_eq env cmds w H). cbv zeta.
  destruct (shell env (script_text cmds) _) as [[st fs']|]; eexists _, _;
    (split; [reflexivity |]); simpl; auto.
Qed.

End ExecutorClaims.

Lemma exec_cmds_returns_witness :
  exists status w',
    exec_cmds SampleBlocked.env_no_shell ["cd build-dist\x64"; "nmake install"]
      (Sample.start Sample.fs_x64) = Ok status w' /\
    status = 1%Z /\
    fs w' !! "z3_tmp.cmd"
    = Some (NFile ("cd build-dist\x64" ++ Str.newline ++ "nmake install" ++ Str.newline)).
Proof.
  destruct (exec_cmds_returns SampleBlocked.env_no_shell ["cd build-dist\x64"; "nmake install"]
              (Sample.start Sample.fs_x64) eq_refl) as (status & w' & Hrun & Hsh & _).
  exists status, w'. split; [exact Hrun |].
  cbv zeta in Hsh. unfold SampleBlocked.env_no_shell in Hsh. cbn [shell] in Hsh.
  destruct Hsh as (Hst & Hfs & _). split; [exact Hst |].
  rewrite Hfs. exact (lookup_insert_eq _ _ _).
Defined.

(** [exec_cmds] raises when the script cannot be opened. *)
Lemma exec_cmds_can_raise :
  exec_cmds Sample.env_ok ["nmake install"] (Sample.start SampleBlocked.fs_blocked)
  = Raise (OSError "IsADirectoryError") (Sample.start SampleBlocked.fs_blocked).
Proof. apply exec_cmds_blocked. vm_compute. reflexivity. Qed.

(** * The runtime dependency locator *)

Lemma fold_left_appends {A B : Type} (f : list B -> A -> list B) (g : A -> list B)
    (l : list A) :
  (forall acc x, f acc x = (acc ++ g x)%list) ->
  forall acc, fold_left f l acc = (acc ++ flat_map g l)%list.
Proof.
  intros Hf. induction l as [|x l IH]; intros acc; simpl.
  - by rewrite app_nil_r.
  - by rewrite IH, Hf, <- app_assoc.
Qed.

(** The three loops, file by file. *)
Lemma collect_runtime_files_eq (isdir : string -> bool) (platform : string)
    (entries : list (string * list string * list string)) :
  collect_runtime_files isdir platform entries =
  flat_map (fun entry => flat_map (runtime_entries isdir platform (fst (fst entry)))
                           (snd entry)) entries.
Proof.
  unfold collect_runtime_files.
  rewrite (fold_left_appends _
    (fun entry => flat_map (runtime_entries isdir platform (fst (fst entry))) (snd entry)));
    [reflexivity |].
  intros acc [[root dirs] files]. cbn [fst snd].
  apply fold_left_appends. intros acc' filename. unfold runtime_entries.
  destruct (Glob.fnmatch filename "*.dll" && check_root platform root);
    [|by rewrite app_nil_r].
  apply fold_left_appends. intros acc'' pat.
  destruct (Re.rmatch pat filename); simpl; [|by rewrite app_nil_r].
  destruct (isdir (Path.join root filename)); simpl; [by rewrite app_nil_r | reflexivity].
Qed.

Lemma in_runtime_entries (isdir : string -> bool) (platform root filename fname : string) :
  In fname (runtime_entries isdir platform root filename) <->
  fname = Path.join root filename /\
  Glob.fnmatch filename "*.dll" = true /\
  check_root platform root = true /\
  (exists pat, In pat VS_RUNTIME_PATS /\ Re.rmatch pat filename = true) /\
  isdir fname = false.
Proof.
  unfold runtime_entries. split.
  - destruct (Glob.fnmatch filename "*.dll"); [|intros []].
    destruct (check_root platform root); [|intros []]. simpl andb. cbv iota.
    intros H. apply in_flat_map in H as (pat & Hpat & H).
    destruct (Re.rmatch pat filename) eqn:Em; [|destruct H].
    destruct (isdir (Path.join root filename)) eqn:Ed; [destruct H |].
    destruct H as [<-|[]]. repeat split; eauto.
  - intros (-> & -> & -> & (pat & Hpat & Hm) & Hd). simpl andb. cbv iota.
    apply in_flat_map. exists pat. split; [exact Hpat |]. rewrite Hm, Hd. simpl. auto.
Qed.


Section Locator.

Variable env : Env.
Variable cfg : Config.




End Locator.


(** * The orchestrator: all architectures *)

Lemma ok_result_world (r : result unit) : outcome r = None -> r = Ok tt (result_world r).
Proof. destruct r as [[] w|e w]; [reflexivity | discriminate]. Qed.

Lemma raise_result_world {A : Type} (r : result A) (e : exn) :
  outcome r = Some e -> r = Raise e (result_world r).
Proof. destruct r as [a w|e' w]; [discriminate | intros [= ->]; reflexivity]. Qed.

Section Orchestrator.

Variable env : Env.
Variable cfg : Config.

Lemma check_vc_cmd_prompt_calls : respects same_calls (check_vc_cmd_prompt env).
Proof. unfold check_vc_cmd_prompt. frame. Qed.

(** What [main] does in the all-architectures scope. *)
Lemma main_all_eq (w : world) :
  os_name env = "nt" ->
  X86ONLY cfg = false -> X64ONLY cfg = false -> ARM64ONLY cfg = false ->
  main env cfg w =
  (check_vc_cmd_prompt env ;;
   mk_build_dirs env cfg ;;
   mk_z3s env cfg ;;
   cp_licenses env cfg ;;
   cp_vs_runtimes env cfg ;;
   if ZIP_BUILD_OUTPUTS cfg then mk_zips env cfg else mret tt) w.
Proof. intros Hos H86 H64 Harm. unfold main. rewrite Hos, H86, H64, Harm. reflexivity. Qed.

Lemma main_ok_windows (w w' : world) : main env cfg w = Ok tt w' -> os_name env = "nt".
Proof.
  unfold main. destruct (String.eqb_spec (os_name env) "nt") as [H|H]; [auto | discriminate].
Qed.

(** C2 (amended). With all architectures in scope the run goes stage by
    stage, not architecture by architecture: a run of [main] that completes
    has entered [mk_build_dir] for every architecture of the registry, in
    registry order, then [mk_z3] for every architecture, then [cp_license],
    then [cp_vs_runtime], and, with [--zip], [mk_zip] for every
    architecture; each stage is done for all architectures before the next
    stage begins. *)
Theorem all_archs_stage_by_stage (w w' : world) :
  X86ONLY cfg = false -> X64ONLY cfg = false -> ARM64ONLY cfg = false ->
  main env cfg w = Ok tt w' ->
  calls w' =
  (calls w
   ++ stage_calls Configure (archs cfg)
   ++ stage_calls Install (archs cfg)
   ++ stage_calls License (archs cfg)
   ++ stage_calls Runtime (archs cfg)
   ++ (if ZIP_BUILD_OUTPUTS cfg then stage_calls Archive (archs cfg) else []))%list.
Proof.
  intros H86 H64 Harm Hmain.
  rewrite (main_all_eq w (main_ok_windows _ _ Hmain) H86 H64 Harm) in Hmain.
  rewrite bind_unfold in Hmain. pose proof (check_vc_cmd_prompt_calls w) as H0.
  destruct (check_vc_cmd_prompt env w) as [[] w0|]; [|discriminate]. simpl in H0.
  rewrite bind_unfold in Hmain.
  destruct (mk_build_dirs env cfg w0) as [[] w1|] eqn:E1; [|discriminate].
  apply (for_each_calls Configure _ _ (mk_build_dir_calls env cfg)) in E1.
  rewrite bind_unfold in Hmain.
  destruct (mk_z3s env cfg w1) as [[] w2|] eqn:E2; [|discriminate].
  apply (for_each_calls Install _ _ (mk_z3_calls env cfg)) in E2.
  rewrite bind_unfold in Hmain.
  destruct (cp_licenses env cfg w2) as [[] w3|] eqn:E3; [|discriminate].
  apply (for_each_calls License _ _ (cp_license_calls env cfg)) in E3.
  rewrite bind_unfold in Hmain.
  destruct (cp_vs_runtimes env cfg w3) as [[] w4|] eqn:E4; [|discriminate].
  apply (for_each_calls Runtime _ _ (cp_vs_runtime_calls env cfg)) in E4.
  destruct (ZIP_BUILD_OUTPUTS cfg).
  - apply (for_each_calls Archive _ _ (mk_zip_calls env cfg)) in Hmain.
    rewrite Hmain, E4, E3, E2, E1, H0. by rewrite <- !app_assoc.
  - injection Hmain as <-. rewrite E4, E3, E2, E1, H0, app_nil_r. by rewrite <- !app_assoc.
Qed.

(** A loop that raises at [k] has entered its procedure for the
    architectures up to [k] and for no other. *)
Lemma for_each_calls_raise (st : stage) (f : string -> M unit) (pre : list string) (k : string)
    (w w1 w' : world) (e : exn) :
  (forall a v, calls (result_world (f a v)) = (calls v ++ [(st, a)])%list) ->
  for_each pre f w = Ok tt w1 ->
  f k w1 = Raise e w' ->
  calls w' = (calls w ++ stage_calls st (pre ++ [k]))%list.
Proof.
  intros Hf Hpre Hk. apply (for_each_calls st f pre Hf) in Hpre.
  specialize (Hf k w1). rewrite Hk in Hf. simpl in Hf.
  unfold stage_calls in *. rewrite map_app, Hf, Hpre, <- app_assoc. reflexivity.
Qed.

(** C1 (amended). With all architectures in scope, a toolchain failure is
    not isolated: when [mk_build_dir] or [mk_z3] raises for an architecture
    [k] (as they do on a non-zero status of their session), [main] raises
    that exception in the world of the failure.  The procedures entered are
    those up to the failing one: nothing is run for the architectures after
    [k], nor any later stage for any architecture. *)
Theorem toolchain_failure_aborts_run (pre post : list string) (k : string) (w w0 : world) :
  os_name env = "nt" ->
  X86ONLY cfg = false -> X64ONLY cfg = false -> ARM64ONLY cfg = false ->
  archs cfg = (pre ++ k :: post)%list ->
  check_vc_cmd_prompt env w = Ok tt w0 ->
  (forall w1 w' e,
     for_each pre (mk_build_dir env cfg) w0 = Ok tt w1 ->
     mk_build_dir env cfg k w1 = Raise e w' ->
     main env cfg w = Raise e w' /\
     calls w' = (calls w ++ stage_calls Configure (pre ++ [k]))%list) /\
  (forall w1 w2 w' e,
     mk_build_dirs env cfg w0 = Ok tt w1 ->
     for_each pre (mk_z3 env cfg) w1 = Ok tt w2 ->
     mk_z3 env cfg k w2 = Raise e w' ->
     main env cfg w = Raise e w' /\
     calls w' = (calls w ++ stage_calls Configure (archs cfg)
                 ++ stage_calls Install (pre ++ [k]))%list).
Proof.
  intros Hos H86 H64 Harm Harchs Hvc.
  pose proof (check_vc_cmd_prompt_calls w) as H0. rewrite Hvc in H0. simpl in H0.
  split.
  - intros w1 w' e Hpre Hk. split.
    + rewrite (main_all_eq w Hos H86 H64 Harm), bind_unfold, Hvc, bind_unfold.
      unfold mk_build_dirs. rewrite Harchs, (for_each_raise pre post k _ _ _ _ _ Hpre Hk).
      reflexivity.
    + rewrite (for_each_calls_raise Configure _ pre k _ _ _ _ (mk_build_dir_calls env cfg)
                 Hpre Hk), H0. reflexivity.
  - intros w1 w2 w' e Hcfg Hpre Hk. split.
    + rewrite (main_all_eq w Hos H86 H64 Harm), bind_unfold, Hvc, bind_unfold, Hcfg,
        bind_unfold.
      unfold mk_z3s. rewrite Harchs, (for_each_raise pre post k _ _ _ _ _ Hpre Hk).
      reflexivity.
    + rewrite (for_each_calls_raise Install _ pre k _ _ _ _ (mk_z3_calls env cfg) Hpre Hk).
      apply (for_each_calls Configure _ _ (mk_build_dir_calls env cfg)) in Hcfg.
      rewrite Hcfg, H0, <- app_assoc. reflexivity.
Qed.

End Orchestrator.

Lemma all_archs_stage_by_stage_witness :
  let r := main Sample.env_ok Sample.cfg_plain (Sample.start Sample.fs_all) in
  outcome r = None /\
  calls (result_world r) =
  [(Configure, "x64"); (Configure, "x86"); (Configure, "arm64");
   (Install, "x64"); (Install, "x86"); (Install, "arm64");
   (License, "x64"); (License, "x86"); (License, "arm64");
   (Runtime, "x64"); (Runtime, "x86"); (Runtime, "arm64");
   (Archive, "x64"); (Archive, "x86"); (Archive, "arm64")].
Proof.
  intros r. assert (Hok : outcome r = None) by (vm_compute; reflexivity).
  split; [exact Hok |].
  exact (all_archs_stage_by_stage Sample.env_ok Sample.cfg_plain
           (Sample.start Sample.fs_all) (result_world r) eq_refl eq_refl eq_refl
           (ok_result_world r Hok)).
Defined.

(** A complete all-architectures run that is not architecture by
    architecture: x86 is configured before x64 is installed. *)
Lemma all_archs_not_arch_by_arch :
  let r := main Sample.env_ok Sample.cfg_plain (Sample.start Sample.fs_all) in
  outcome r = None /\
  arch_by_arch (calls (result_world r)) = false /\
  exists l,
    calls (result_world r)
    = ([(Configure, "x64"); (Configure, "x86"); (Configure, "arm64"); (Install, "x64")]
       ++ l)%list.
Proof.
  intros r. split; [vm_compute; reflexivity |]. split; [vm_compute; reflexivity |].
  eexists. vm_compute. reflexivity.
Qed.

Lemma toolchain_failure_aborts_run_witness :
  let w := Sample.start Sample.fs_all in
  let w0 := result_world (check_vc_cmd_prompt Sample.env_fail w) in
  let w' := result_world (mk_build_dir Sample.env_fail Sample.cfg_plain "x64" w0) in
  main Sample.env_fail Sample.cfg_plain w = Raise (MKException "failed to run commands") w' /\
  calls w' = (calls w ++ stage_calls Configure ([] ++ ["x64"]))%list.
Proof.
  intros w w0 w'.
  assert (H0 : outcome (check_vc_cmd_prompt Sample.env_fail w) = None)
    by (vm_compute; reflexivity).
  assert (H1 : outcome (mk_build_dir Sample.env_fail Sample.cfg_plain "x64" w0)
               = Some (MKException "failed to run commands"))
    by (vm_compute; reflexivity).
  exact (proj1 (toolchain_failure_aborts_run Sample.env_fail Sample.cfg_plain
            [] ["x86"; "arm64"] "x64" w w0 eq_refl eq_refl eq_refl eq_refl eq_refl
            (ok_result_world _ H0))
            w0 w' (MKException "failed to run commands") eq_refl
            (raise_result_world _ _ H1)).
Defined.

(** With every session failing, the run over all architectures stops in the
    first architecture: one configure session was run, for x64, and no
    procedure was entered for x86 or arm64. *)
Lemma failure_halts_other_archs :
  let r := main Sample.env_fail Sample.cfg_plain (Sample.start Sample.fs_all) in
  outcome r = Some (MKException "failed to run commands") /\
  calls (result_world r) = [(Configure, "x64")] /\
  (forall st, ~ In (st, "x86") (calls (result_world r))) /\
  (forall st, ~ In (st, "arm64") (calls (result_world r))).
Proof.
  intros r. assert (Hc : calls (result_world r) = [(Configure, "x64")])
    by (vm_compute; reflexivity).
  split; [vm_compute; reflexivity |]. split; [exact Hc |]. rewrite Hc.
  split; intros st [H|[]]; discriminate H.
Qed.

(** * The packaging steps *)




Section Packaging.

Variable env : Env.
Variable cfg : Config.



(** [mk_zip], when it returns, has opened at most one archive, named after
    the distribution, for deflate compression, and written nothing to it. *)
Lemma mk_zip_ok (arch : string) (w w' : world) :
  mk_zip env cfg arch w = Ok tt w' ->
  exists zips,
    List.filter is_pack (trace w') = (List.filter is_pack (trace w) ++ zips)%list /\
    (zips = [] \/ zips = [EvZipOpen (z3_name env cfg arch ++ ".zip") ZIP_DEFLATED]).
Proof.
  rewrite mk_zip_eq. cbv zeta.
  destruct (assoc arch (ARCHS cfg)) as [build_dir|]; [|discriminate].
  set (w1 := World (fs w) (cwd w) (trace w) (calls w ++ [(Archive, arch)])).
  pose proof (get_z3_name_not_pack env cfg arch w1) as Hfr.
  destruct (get_z3_name env cfg arch w1) as [name w2|] eqn:En; [|discriminate].
  apply get_z3_name_ok in En as [-> _]. intros [= <-]. simpl in Hfr.
  destruct (zip_outcome_trace (Path.join build_dir DIST_DIR) (z3_name env cfg arch ++ ".zip") w2)
    as (evs & Htr & Hpack).
  exists (List.filter is_pack evs). split; [|exact Hpack].
  rewrite Htr, List.filter_app.
  rewrite (adds_only_filter_false _ is_pack _ _ (fun ev => proj1 (negb_true_iff _)) Hfr).
  reflexivity.
Qed.




End Packaging.



(** * The x64 scenario *)

Lemma filter_call_writes (cmds : list string) : List.filter is_call (script_writes cmds) = [].
Proof. induction cmds as [|c cmds IH]; simpl; [reflexivity | exact IH]. Qed.

Section Scenario.

Variable env : Env.
Variable cfg : Config.




End Scenario.


(** * What the runtime patterns accept *)

Lemma string_app_cons (c : ascii) (s t : string) : String c s ++ t = String c (s ++ t).
Proof. reflexivity. Qed.

Lemma string_app_nil_l (s : string) : "" ++ s = s.
Proof. reflexivity. Qed.

Lemma string_app_eq_nil (s t : string) : s ++ t = "" -> s = "" /\ t = "".
Proof. destruct s; [auto | rewrite string_app_cons; discriminate]. Qed.

Lemma nullable_lang (r : Re.regex) : Re.nullable r = true <-> lang r "".
Proof.
  split.
  - induction r; simpl; intros H; try discriminate.
    + constructor.
    + apply andb_true_iff in H as [H1 H2].
      change "" with ("" ++ ""). constructor; auto.
    + apply orb_true_iff in H as [H|H]; [apply lang_alt_l | apply lang_alt_r]; auto.
    + constructor.
  - intros H. remember "" as s eqn:Es. induction H; simpl; try discriminate; auto.
    + apply string_app_eq_nil in Es as [-> ->]. by rewrite IHlang1, IHlang2.
    + by rewrite IHlang.
    + rewrite IHlang; [apply orb_true_r | assumption].
Qed.

(** A non-empty word of [r*] starts with a non-empty word of [r]. *)
Lemma lang_star_cons_inv (r : Re.regex) (a : ascii) (s : string) :
  lang (Re.Star r) (String a s) ->
  exists s1 s2, s = s1 ++ s2 /\ lang r (String a s1) /\ lang (Re.Star r) s2.
Proof.
  intros H. remember (Re.Star r) as r' eqn:Er. remember (String a s) as t eqn:Et.
  revert Er Et. induction H; intros Er Et; try discriminate.
  injection Er as ->. destruct s1 as [|c s1].
  - rewrite string_app_nil_l in Et. auto.
  - rewrite string_app_cons in Et. injection Et as -> <-. eauto.
Qed.

Lemma deriv_lang (r : Re.regex) : forall (a : ascii) (s : string),
  lang (Re.deriv a r) s <-> lang r (String a s).
Proof.
  induction r; intros a s; simpl.
  - split; intros H; inversion H.
  - split; intros H; inversion H.
  - destruct (Ascii.eqb_spec a c) as [->|Hne].
    + split; intros H; inversion H; subst; constructor.
    + split; intros H; inversion H; subst. contradiction.
  - destruct (Ascii.eqb_spec a Str.nl) as [->|Hne].
    + split; intros H; inversion H; subst. contradiction.
    + split; intros H; inversion H; subst; by constructor.
  - assert (Hseq : lang (Re.Seq (Re.deriv a r1) r2) s ->
                   lang (Re.Seq r1 r2) (String a s)).
    { intros H. inversion H; subst. rewrite <- string_app_cons.
      constructor; [by apply IHr1 | assumption]. }
    assert (Hinv : lang (Re.Seq r1 r2) (String a s) ->
                   lang (Re.Seq (Re.deriv a r1) r2) s \/
                   (lang r1 "" /\ lang r2 (String a s))).
    { intros H. inversion H as [| | |? ? s1 s2 H1 H2 E1 E2| | | |]; subst.
      destruct s1 as [|c s1].
      - rewrite string_app_nil_l in E2. subst. auto.
      - rewrite string_app_cons in E2. injection E2 as -> <-.
        left. constructor; [by apply IHr1 | assumption]. }
    destruct (Re.nullable r1) eqn:En.
    + split.
      * intros H. inversion H; subst; [auto |].
        change (String a s) with ("" ++ String a s).
        constructor; [by apply nullable_lang | by apply IHr2].
      * intros H. apply Hinv in H as [H|[_ H]];
          [by apply lang_alt_l | apply lang_alt_r; by apply IHr2].
    + split; [exact Hseq |].
      intros H. apply Hinv in H as [H|[H _]]; [exact H |].
      apply nullable_lang in H. congruence.
  - split.
    + intros H. inversion H; subst;
        [apply lang_alt_l; by apply IHr1 | apply lang_alt_r; by apply IHr2].
    + intros H. inversion H; subst;
        [apply lang_alt_l; by apply IHr1 | apply lang_alt_r; by apply IHr2].
  - split.
    + intros H. inversion H; subst. rewrite <- string_app_cons.
      constructor; [by apply IHr | assumption].
    + intros H. apply lang_star_cons_inv in H as (s1 & s2 & -> & H1 & H2).
      constructor; [by apply IHr | assumption].
Qed.

(** [pat.match(s)]: some prefix of [s] is a word of the pattern. *)
Lemma rmatch_lang (r : Re.regex) (s : string) :
  Re.rmatch r s = true <-> exists p q, s = p ++ q /\ lang r p.
Proof.
  revert r. induction s as [|a s IH]; intros r; simpl.
  - rewrite orb_false_r, nullable_lang. split.
    + intros H. exists "", "". auto.
    + intros (p & q & E & H). symmetry in E. apply string_app_eq_nil in E as [-> _]. exact H.
  - rewrite orb_true_iff, nullable_lang, IH. split.
    + intros [H|(p & q & -> & H)].
      * exists "", (String a s). auto.
      * exists (String a p), q. split; [reflexivity | by apply deriv_lang].
    + intros (p & q & E & H). destruct p as [|c p].
      * auto.
      * rewrite string_app_cons in E. injection E as <- ->. right.
        exists p, q. split; [reflexivity | by apply deriv_lang].
Qed.

Lemma lang_lit (s : string) (k : Re.regex) (p : string) :
  lang (Re.lit s k) p <-> exists q, p = s ++ q /\ lang k q.
Proof.
  revert p. induction s as [|c s IH]; intros p; simpl.
  - split; [intros H; exists p; auto | intros (q & -> & H); exact H].
  - split.
    + intros H. inversion H as [| | |? ? s1 s2 H1 H2| | | |]; subst.
      inversion H1; subst. apply IH in H2 as (q & -> & H2). exists q. auto.
    + intros (q & -> & H). rewrite string_app_cons. change (String c (s ++ q)) with
        (String c "" ++ (s ++ q)). constructor; [constructor | apply IH; eauto].
Qed.

Lemma has_char_app (c : ascii) (s t : string) :
  has_char c (s ++ t) = has_char c s || has_char c t.
Proof.
  induction s as [|x s IH]; [reflexivity |].
  rewrite string_app_cons. simpl. by rewrite IH, orb_assoc.
Qed.

(** [.*]: any run of characters without a newline. *)
Lemma lang_dot_star (m : string) :
  lang (Re.Star Re.Dot) m <-> has_char Str.nl m = false.
Proof.
  split.
  - intros H. remember (Re.Star Re.Dot) as r eqn:Er. induction H; try discriminate.
    + reflexivity.
    + injection Er as ->. rewrite has_char_app, IHlang2 by reflexivity.
      inversion H; subst. cbn [has_char]. rewrite !orb_false_r.
      by apply Ascii.eqb_neq.
  - induction m as [|c m IH]; simpl; intros H.
    + constructor.
    + apply orb_false_iff in H as [Hc Hm].
      change (String c m) with (String c "" ++ m).
      constructor; [constructor; by apply Ascii.eqb_neq | auto].
Qed.

(** X14. What a pattern [<stem>.*\.dll] accepts with [match]: the name starts
    with the stem and has [.dll] somewhere after it, with no newline between;
    anything may follow. *)
Theorem runtime_pat_accepts (stem s : string) :
  Re.rmatch (runtime_pat stem) s = true <->
  exists mid rest, s = stem ++ mid ++ ".dll" ++ rest /\ has_char Str.nl mid = false.
Proof.
  rewrite rmatch_lang. unfold runtime_pat. split.
  - intros (p & q & -> & H). apply lang_lit in H as (p1 & -> & H).
    inversion H as [| | |? ? s1 s2 H1 H2| | | |]; subst.
    apply lang_dot_star in H1.
    apply (proj1 (lang_lit ".dll" Re.Eps s2)) in H2 as (e & -> & He). inversion He; subst.
    exists s1, q. split; [|exact H1].
    by rewrite !string_app_assoc.
  - intros (mid & rest & -> & Hm). exists (stem ++ mid ++ ".dll"), rest. split.
    + by rewrite !string_app_assoc.
    + apply lang_lit. exists (mid ++ ".dll"). split; [reflexivity |].
      constructor; [by apply lang_dot_star |].
      apply lang_lit. exists "". split; [reflexivity | constructor].
Qed.


Lemma runtime_pat_stem (stem s : string) :
  Re.rmatch (runtime_pat stem) s = true -> exists t, s = stem ++ t.
Proof.
  intros H. apply rmatch_lang in H as (p & q & -> & H). unfold runtime_pat in H.
  apply lang_lit in H as (p1 & -> & _). exists (p1 ++ q). by rewrite string_app_assoc.
Qed.

(** No name matches two of the four patterns. *)
Lemma runtime_pats_exclusive (s : string) (p1 p2 : Re.regex) :
  In p1 VS_RUNTIME_PATS -> In p2 VS_RUNTIME_PATS ->
  Re.rmatch p1 s = true -> Re.rmatch p2 s = true -> p1 = p2.
Proof.
  unfold VS_RUNTIME_PATS. simpl.
  intros [<-|[<-|[<-|[<-|[]]]]] [<-|[<-|[<-|[<-|[]]]]] H1 H2; try reflexivity;
    apply runtime_pat_stem in H1 as [t1 E1]; apply runtime_pat_stem in H2 as [t2 E2];
    rewrite E1 in E2; rewrite !string_app_cons in E2; discriminate E2.
Qed.

(** X15. Every file of the walk is collected at most once: what one file
    contributes to [vs_runtime_files] is nothing or its path, once, and so no
    more paths are collected than the walk has files. *)
Theorem each_file_collected_once (isdir : string -> bool) (platform : string) :
  (forall root filename,
     runtime_entries isdir platform root filename = [] \/
     runtime_entries isdir platform root filename = [Path.join root filename]) /\
  (forall entries,
     List.length (collect_runtime_files isdir platform entries)
     <= List.length (flat_map snd entries)).
Proof.
  assert (Hone : forall root filename,
     runtime_entries isdir platform root filename = [] \/
     runtime_entries isdir platform root filename = [Path.join root filename]).
  { intros root filename. unfold runtime_entries.
    destruct (Glob.fnmatch filename "*.dll" && check_root platform root); [|auto].
    destruct (isdir (Path.join root filename)).
    { left. unfold VS_RUNTIME_PATS. simpl. rewrite !andb_false_r. reflexivity. }
    pose proof (runtime_pats_exclusive filename) as Hx.
    unfold VS_RUNTIME_PATS in *. cbn [flat_map negb]. rewrite !andb_true_r.
    destruct (Re.rmatch (runtime_pat "vcomp") filename) eqn:E1;
    destruct (Re.rmatch (runtime_pat "msvcp") filename) eqn:E2;
    destruct (Re.rmatch (runtime_pat "msvcr") filename) eqn:E3;
    destruct (Re.rmatch (runtime_pat "vcrun") filename) eqn:E4;
    cbn [app]; auto; exfalso;
    repeat match goal with
    | Ha : Re.rmatch (runtime_pat ?a) filename = true,
      Hb : Re.rmatch (runtime_pat ?b) filename = true |- _ =>
        assert (runtime_pat a = runtime_pat b)
          by (apply Hx; simpl; auto);
        discriminate
    end. }
  split; [exact Hone |].
  intros entries. rewrite collect_runtime_files_eq.
  induction entries as [|[[root dirs] files] entries IH]; [reflexivity |].
  cbn [flat_map fst snd]. rewrite !length_app.
  assert (Hfiles : List.length (flat_map (runtime_entries isdir platform root) files)
                   <= List.length files).
  { clear IH. induction files as [|f files IHf]; [reflexivity |].
    cbn [flat_map]. rewrite length_app. simpl.
    destruct (Hone root f) as [-> | ->]; simpl; lia. }
  lia.
Qed.

(** * Substrings, and the directories [check_root] refuses *)

Lemma prefix_iff (n h : string) :
  String.prefix n h = true <-> exists post, h = n ++ post.
Proof.
  revert h. induction n as [|a n IH]; intros h.
  - split; [intros _; exists h; reflexivity | intros _; by destruct h].
  - destruct h as [|b h].
    + split; [discriminate | intros [post E]; discriminate E].
    + simpl. destruct (Ascii.ascii_dec a b) as [->|Hne].
      * rewrite IH. split; intros [post E]; exists post.
        -- rewrite string_app_cons. by rewrite E.
        -- rewrite string_app_cons in E. by injection E.
      * split; [discriminate |]. intros [post E]. rewrite string_app_cons in E.
        injection E as E _. congruence.
Qed.

(** [needle in hay]: the needle occurs somewhere in the haystack. *)
Lemma contains_iff (n h : string) :
  Str.contains n h = true <-> exists pre post, h = pre ++ n ++ post.
Proof.
  induction h as [|c h IH]; cbn [Str.contains]; rewrite orb_true_iff, prefix_iff.
  - split.
    + intros [[post E]|H]; [exists "", post; exact E | discriminate].
    + intros (pre & post & E). left. destruct pre; [eauto | discriminate E].
  - rewrite IH. split.
    + intros [[post E]|(pre & post & E)].
      * exists "", post. exact E.
      * exists (String c pre), post. rewrite string_app_cons. by rewrite E.
    + intros (pre & post & E). destruct pre as [|x pre].
      * left. exists post. exact E.
      * right. rewrite string_app_cons in E. injection E as _ E. eauto.
Qed.

Lemma contains_app_r (n h t : string) :
  Str.contains n h = true -> Str.contains n (h ++ t) = true.
Proof.
  rewrite !contains_iff. intros (pre & post & ->). exists pre, (post ++ t).
  by rewrite !string_app_assoc.
Qed.

Lemma last_char_none (s : string) : Str.last_char s = None -> s = "".
Proof.
  induction s as [|c s IH]; [reflexivity |]. simpl.
  destruct s as [|d s]; [discriminate |]. intros H. apply IH in H. discriminate H.
Qed.

Lemma splitdrive_eq (p : string) : p = fst (Path.splitdrive p) ++ snd (Path.splitdrive p).
Proof.
  destruct p as [|c [|d rest]]; try reflexivity.
  unfold Path.splitdrive. destruct (Ascii.eqb d ":"); reflexivity.
Qed.

Lemma splitdrive_relative (p : string) :
  Path.relative p = true -> Path.splitdrive p = ("", p) /\ Path.rooted p = false.
Proof.
  unfold Path.relative. intros H. apply andb_true_iff in H as [Hr Hd].
  apply negb_true_iff in Hr. split; [|exact Hr].
  destruct p as [|c [|d rest]]; try reflexivity.
  unfold Path.splitdrive in *. destruct (Ascii.eqb d ":"); [discriminate Hd | reflexivity].
Qed.

(** Joining a relative component to a path extends the path. *)
Lemma path_join_extends (a b : string) :
  Path.relative b = true -> exists sub, Path.join a b = a ++ sub.
Proof.
  intros Hb. apply splitdrive_relative in Hb as [Hs Hr]. unfold Path.join.
  rewrite Hs, Hr. pose proof (splitdrive_eq a) as Ea.
  destruct (Path.splitdrive a) as [da pa]. cbn [fst snd] in Ea.
  cbn [String.eqb negb andb]. subst a.
  destruct (Str.last_char pa) as [c|]; [destruct (Path.is_sep c) |].
  - exists b. by rewrite string_app_assoc.
  - exists (Path.sep ++ b). by rewrite !string_app_assoc.
  - exists b. by rewrite string_app_assoc.
Qed.

Lemma path_joins_extend (names : list string) : forall (a : string),
  forallb Path.relative names = true -> exists sub, fold_left Path.join names a = a ++ sub.
Proof.
  induction names as [|n names IH]; intros a H; cbn [fold_left].
  - exists "". by rewrite string_app_nil_r.
  - cbn [forallb] in H. apply andb_true_iff in H as [Hn H].
    destruct (path_join_extends a n Hn) as [s1 ->].
    destruct (IH (a ++ s1) H) as [s2 ->]. exists (s1 ++ s2). by rewrite string_app_assoc.
Qed.

(** X16. Nothing is collected from a directory whose path contains [debug] or
    [onecore], nor from any directory below it, however deep: every path that
    extends such a path is refused by [check_root], whatever the platform and
    whatever else the path contains, and so is every path [os.walk] forms
    below it by joining directory names (names without a drive or a leading
    separator) to it, one after the other. *)
Theorem refused_subtrees (isdir : string -> bool) (platform bad sub filename : string)
    (names : list string) :
  Str.contains "debug" bad = true \/ Str.contains "onecore" bad = true ->
  forallb Path.relative names = true ->
  check_root platform (bad ++ sub) = false /\
  runtime_entries isdir platform (bad ++ sub) filename = [] /\
  runtime_entries isdir platform (fold_left Path.join names bad) filename = [].
Proof.
  intros Hbad Hrel.
  assert (Hroot : forall sub, check_root platform (bad ++ sub) = false).
  { intros s. unfold check_root.
    destruct Hbad as [H|H]; apply (contains_app_r _ _ s) in H; rewrite H; simpl;
      [apply andb_false_r | by rewrite andb_false_r]. }
  assert (Hent : forall sub, runtime_entries isdir platform (bad ++ sub) filename = []).
  { intros s. unfold runtime_entries. by rewrite Hroot, andb_false_r. }
  split; [apply Hroot |]. split; [apply Hent |].
  destruct (path_joins_extend names bad Hrel) as [sub' ->]. apply Hent.
Qed.

Lemma refused_subtrees_witness :
  check_root "x64" ("C:\VS\VC\redist\MSVC\14.x\debug" ++ "\x64\Microsoft.VC143.CRT") = false /\
  runtime_entries (fun _ => false) "x64"
    ("C:\VS\VC\redist\MSVC\14.x\debug" ++ "\x64\Microsoft.VC143.CRT") "vcruntime140.dll" = [] /\
  runtime_entries (fun _ => false) "x64"
    "C:\VS\VC\redist\MSVC\14.x\debug\x64\Microsoft.VC143.CRT" "vcruntime140.dll" = [].
Proof.
  assert (Hbad : Str.contains "debug" "C:\VS\VC\redist\MSVC\14.x\debug" = true)
    by (vm_compute; reflexivity).
  exact (refused_subtrees (fun _ => false) "x64" "C:\VS\VC\redist\MSVC\14.x\debug"
           "\x64\Microsoft.VC143.CRT" "vcruntime140.dll" ["x64"; "Microsoft.VC143.CRT"]
           (or_introl Hbad) eq_refl).
Defined.

(** * The glob [*.dll] *)

Lemma matchcase_literal (lit_ s : string) :
  has_char "*"%char lit_ = false -> has_char "?"%char lit_ = false ->
  Glob.matchcase lit_ s = true <-> s = lit_.
Proof.
  revert s. induction lit_ as [|p l IH]; intros s Hs Hq; simpl in *.
  - destruct s; split; auto; discriminate.
  - apply orb_false_iff in Hs as [Hs1 Hs2]. apply orb_false_iff in Hq as [Hq1 Hq2].
    rewrite Hs1, Hq1. destruct s as [|c s]; [split; discriminate |].
    rewrite andb_true_iff, (IH s Hs2 Hq2). split.
    + intros [Hc ->]. apply Ascii.eqb_eq in Hc as ->. reflexivity.
    + intros [= -> ->]. split; [apply Ascii.eqb_refl | reflexivity].
Qed.

(** [fnmatch(name, '*.dll')] holds exactly when the name, once through
    [normcase], ends in [.dll]. *)
Lemma fnmatch_dll_normcase (name : string) :
  Glob.fnmatch name "*.dll" = true <-> exists pre, Path.normcase name = pre ++ ".dll".
Proof.
  unfold Glob.fnmatch. change (Path.normcase "*.dll") with "*.dll".
  generalize (Path.normcase name) as s. intros s.
  change (Glob.matchcase "*.dll" s) with
    ((fix star (s : string) : bool :=
        Glob.matchcase ".dll" s ||
        match s with EmptyString => false | String _ s' => star s' end) s).
  induction s as [|c s IH].
  - rewrite orb_false_r, (matchcase_literal ".dll" "" eq_refl eq_refl). split.
    + discriminate.
    + intros [pre E]. destruct pre; discriminate E.
  - rewrite orb_true_iff, IH, (matchcase_literal ".dll" _ eq_refl eq_refl). split.
    + intros [E|[pre E]].
      * exists "". exact E.
      * exists (String c pre). rewrite string_app_cons. by rewrite E.
    + intros [pre E]. destruct pre as [|x pre].
      * left. exact E.
      * right. rewrite string_app_cons in E. injection E as _ E. eauto.
Qed.

(** [normcase] works character by character. *)
Lemma normcase_cons (c : ascii) (s : string) :
  Path.normcase (String c s) = Path.normcase (String c "") ++ Path.normcase s.
Proof. reflexivity. Qed.

Lemma normcase_app (a b : string) :
  Path.normcase (a ++ b) = Path.normcase a ++ Path.normcase b.
Proof.
  induction a as [|c a IH]; [reflexivity |].
  rewrite string_app_cons, normcase_cons, IH, (normcase_cons c a), string_app_assoc.
  reflexivity.
Qed.

Lemma normcase_split (pre t : string) : forall (s : string),
  Path.normcase s = pre ++ t ->
  exists s1 s2, s = s1 ++ s2 /\ Path.normcase s1 = pre /\ Path.normcase s2 = t.
Proof.
  induction pre as [|x pre IH]; intros s H.
  - exists "", s. auto.
  - destruct s as [|c s]; [discriminate H |].
    rewrite string_app_cons in H. cbn [Path.normcase] in H. injection H as Hc H.
    destruct (IH s H) as (s1 & s2 & -> & H1 & H2).
    exists (String c s1), s2. repeat split; [|exact H2].
    cbn [Path.normcase]. by rewrite Hc, H1.
Qed.

(** The characters [normcase] takes to [.], to [d] and to [l]. *)
Lemma normcase_dot (c : ascii) : Path.normcase (String c "") = "." -> c = "."%char.
Proof.
  destruct c as [[] [] [] [] [] [] [] []]; vm_compute; intros H;
    first [discriminate H | reflexivity].
Qed.

Lemma normcase_d (c : ascii) :
  Path.normcase (String c "") = "d" -> c = "d"%char \/ c = "D"%char.
Proof.
  destruct c as [[] [] [] [] [] [] [] []]; vm_compute; intros H;
    first [discriminate H | left; reflexivity | right; reflexivity].
Qed.

Lemma normcase_l (c : ascii) :
  Path.normcase (String c "") = "l" -> c = "l"%char \/ c = "L"%char.
Proof.
  destruct c as [[] [] [] [] [] [] [] []]; vm_compute; intros H;
    first [discriminate H | left; reflexivity | right; reflexivity].
Qed.

(** The glob [*.dll] does not mind the case of the name. *)
Lemma fnmatch_ends_in_dll (name : string) :
  Glob.fnmatch name "*.dll" = true <-> ends_in_dll name.
Proof.
  rewrite fnmatch_dll_normcase. unfold ends_in_dll. split.
  - intros [pre H]. apply normcase_split in H as (s1 & s2 & -> & _ & H).
    destruct s2 as [|c0 [|a [|b [|c [|x s2]]]]]; try discriminate H.
    cbn [Path.normcase] in H. injection H as H0 Ha Hb Hc.
    exists s1, a, b, c.
    assert (c0 = "."%char) as -> by (apply normcase_dot; cbn [Path.normcase]; by rewrite H0).
    split; [reflexivity |]. split; [|split].
    + apply normcase_d. cbn [Path.normcase]. by rewrite Ha.
    + apply normcase_l. cbn [Path.normcase]. by rewrite Hb.
    + apply normcase_l. cbn [Path.normcase]. by rewrite Hc.
  - intros (pre & a & b & c & -> & Ha & Hb & Hc). exists (Path.normcase pre).
    rewrite normcase_app. f_equal.
    destruct Ha as [-> | ->], Hb as [-> | ->], Hc as [-> | ->]; reflexivity.
Qed.

(** What a pattern [<stem>.*<suffix>] without special characters in stem and
    suffix accepts with [match]. *)
Lemma rmatch_stem_suffix (stem suffix s : string) :
  Re.rmatch (Re.lit stem (Re.Seq (Re.Star Re.Dot) (Re.lit suffix Re.Eps))) s = true <->
  exists mid rest, s = stem ++ mid ++ suffix ++ rest /\ has_char Str.nl mid = false.
Proof.
  rewrite rmatch_lang. split.
  - intros (p & q & -> & H). apply lang_lit in H as (p1 & -> & H).
    inversion H as [| | |? ? s1 s2 H1 H2| | | |]; subst.
    apply lang_dot_star in H1.
    apply (proj1 (lang_lit suffix Re.Eps s2)) in H2 as (e & -> & He). inversion He; subst.
    exists s1, q. split; [|exact H1].
    by rewrite !string_app_assoc.
  - intros (mid & rest & -> & Hm). exists (stem ++ mid ++ suffix), rest. split.
    + by rewrite !string_app_assoc.
    + apply lang_lit. exists (mid ++ suffix). split; [reflexivity |].
      constructor; [by apply lang_dot_star |].
      apply lang_lit. exists "". split; [by rewrite string_app_nil_r | constructor].
Qed.

(** X17. The names of the files [cp_vs_runtime] collects, spelled out: a file
    [filename] of a directory [root] of the walk is collected, as
    [join(root, filename)], exactly when [root] passes [check_root], the
    joined path is not a directory, the name ends in [.dll] in whatever case
    (the glob does not mind the case), and the name starts with one of the
    four stems, in lower case, with [.dll], in lower case, somewhere after it
    (the patterns do mind the case, and they accept anything after the
    [.dll] they find). *)
Theorem collected_file_names (isdir : string -> bool)
    (platform root filename fname : string) :
  In fname (runtime_entries isdir platform root filename) <->
  fname = Path.join root filename /\
  check_root platform root = true /\
  isdir fname = false /\
  ends_in_dll filename /\
  exists stem, In stem VS_RUNTIME_STEMS /\ stem_then_dll stem filename.
Proof.
  rewrite in_runtime_entries, fnmatch_ends_in_dll. unfold stem_then_dll. split.
  - intros (E & Hd & Hr & (pat & Hp & Hm) & Hi). repeat split; auto.
    unfold VS_RUNTIME_PATS in Hp. cbn [In] in Hp.
    destruct Hp as [<-|[<-|[<-|[<-|[]]]]];
      [exists "vcomp" | exists "msvcp" | exists "msvcr" | exists "vcrun"];
      (split; [simpl; auto | apply (proj1 (rmatch_stem_suffix _ ".dll" filename)); exact Hm]).
  - intros (E & Hr & Hi & Hd & stem & Hs & Hm). repeat split; auto.
    exists (runtime_pat stem). split.
    + unfold VS_RUNTIME_STEMS in Hs. simpl in Hs.
      destruct Hs as [<-|[<-|[<-|[<-|[]]]]]; simpl; auto.
    + unfold runtime_pat. apply rmatch_stem_suffix. exact Hm.
Qed.

(** * The command line *)

Lemma parse_loop_app (l1 l2 : list (string * string)) (o : Options) :
  parse_loop (l1 ++ l2)%list o =
  match parse_loop l1 o with
  | Parsed o' => parse_loop l2 o'
  | r => r
  end.
Proof.
  revert o. induction l1 as [|[opt arg] l1 IH]; intros o; simpl; [reflexivity |].
  destruct (parse_option opt arg o); auto.
Qed.

(** Case analysis on one turn of the option loop: in every case that goes on
    the option is known. *)
Ltac parse_cases H :=
  unfold parse_option, opt_in in H;
  repeat match type of H with
         | context [if ?b then _ else _] => destruct b eqn:?
         end;
  try discriminate H;
  injection H as <-;
  repeat match goal with
         | E : _ || _ = true |- _ => apply orb_true_iff in E as [E|E]
         | E : _ && _ = true |- _ => apply andb_true_iff in E as [E ?]
         | E : negb _ = true |- _ => apply negb_true_iff in E
         | E : String.eqb _ _ = true |- _ => apply String.eqb_eq in E; subst
         end.

Lemma parse_option_only_flags (opt arg : string) (o o' : Options) :
  parse_option opt arg o = Parsed o' ->
  (X86ONLY (globals o) && X64ONLY (globals o) = false ->
   X86ONLY (globals o') && X64ONLY (globals o') = false) /\
  (X86ONLY (globals o) = true -> X86ONLY (globals o') = true) /\
  (X64ONLY (globals o) = true -> X64ONLY (globals o') = true) /\
  (opt = "--x86-only" -> X86ONLY (globals o') = true) /\
  (opt = "--x64-only" -> X64ONLY (globals o') = true).
Proof.
  intros H. parse_cases H; cbn;
    repeat split; intros; try discriminate; try assumption; try reflexivity;
    try congruence; try (by rewrite andb_false_r);
    try match goal with E : X86ONLY _ = false |- _ => by rewrite E end;
    try match goal with E : X64ONLY _ = false |- _ => by rewrite E, ?andb_false_r end.
Qed.

(** X1. However the options are ordered, a command line that is accepted never
    leaves both [X86ONLY] and [X64ONLY] set. *)
Theorem only_flags_exclusive (options : list (string * string)) (o : Options) :
  parse_loop options initial_options = Parsed o ->
  X86ONLY (globals o) && X64ONLY (globals o) = false.
Proof.
  assert (Hgen : forall o0, X86ONLY (globals o0) && X64ONLY (globals o0) = false ->
            parse_loop options o0 = Parsed o ->
            X86ONLY (globals o) && X64ONLY (globals o) = false).
  { induction options as [|[opt arg] options IH]; intros o0 Hinv H; simpl in H.
    - by injection H as <-.
    - destruct (parse_option opt arg o0) as [o1| |] eqn:E; try discriminate.
      apply parse_option_only_flags in E as (E & _). eauto. }
  apply Hgen. reflexivity.
Qed.

Lemma only_flags_exclusive_witness :
  X86ONLY (globals (with_globals (set_X86ONLY true)
                      (with_globals (set_ARM64ONLY true) initial_options)))
  && X64ONLY (globals (with_globals (set_X86ONLY true)
                         (with_globals (set_ARM64ONLY true) initial_options))) = false.
Proof.
  apply (only_flags_exclusive [("--arm64-only", ""); ("--x86-only", "")]).
  reflexivity.
Defined.

Lemma parse_loop_monotone (options : list (string * string)) : forall (o o' : Options),
  parse_loop options o = Parsed o' ->
  (X86ONLY (globals o) = true -> X86ONLY (globals o') = true) /\
  (X64ONLY (globals o) = true -> X64ONLY (globals o') = true).
Proof.
  induction options as [|[opt arg] options IH]; intros o o' H; simpl in H.
  - injection H as <-. auto.
  - destruct (parse_option opt arg o) as [o1| |] eqn:E; try discriminate.
    apply parse_option_only_flags in E as (_ & E1 & E2 & _).
    apply IH in H as [H1 H2]. auto.
Qed.

Lemma parse_option_refused (opt arg : string) (o : Options) :
  (X86ONLY (globals o) = true /\ (opt = "--x64-only" \/ opt = "--arm64-only")) \/
  (X64ONLY (globals o) = true /\ (opt = "--x86-only" \/ opt = "--arm64-only")) ->
  parse_option opt arg o
  = Invalid (MKException ("Invalid command line option '" ++ opt ++ "'")).
Proof.
  intros [[H [-> | ->]]|[H [-> | ->]]]; unfold parse_option, opt_in; cbn;
    rewrite H; cbn; rewrite ?andb_false_r; reflexivity.
Qed.

(** X2. The only-flags exclude each other in this way: after [--x86-only], a
    later [--x64-only] or [--arm64-only] is refused, and after [--x64-only] a
    later [--x86-only] or [--arm64-only], whatever stands before, between or
    behind them; such a command line is never accepted.  ([--arm64-only]
    given first refuses nothing that follows.) *)
Theorem conflicting_only_flags_refused
    (l1 l2 l3 : list (string * string)) (first a1 later a2 : string) (o0 : Options) :
  refused_after first later = true ->
  forall o, parse_loop (l1 ++ (first, a1) :: l2 ++ (later, a2) :: l3)%list o0 <> Parsed o.
Proof.
  intros Hr o H.
  rewrite parse_loop_app in H.
  destruct (parse_loop l1 o0) as [o1| |]; try discriminate.
  simpl in H.
  destruct (parse_option first a1 o1) as [o2| |] eqn:E1; try discriminate.
  rewrite parse_loop_app in H.
  destruct (parse_loop l2 o2) as [o3| |] eqn:E2; try discriminate.
  simpl in H.
  apply parse_option_only_flags in E1 as (_ & _ & _ & F86 & F64).
  apply parse_loop_monotone in E2 as [M86 M64].
  rewrite parse_option_refused in H; [discriminate |].
  unfold refused_after in Hr.
  apply orb_true_iff in Hr as [Hr|Hr]; apply andb_true_iff in Hr as [Hf Hl];
    apply String.eqb_eq in Hf; apply orb_true_iff in Hl as [Hl|Hl];
    apply String.eqb_eq in Hl; auto.
Qed.

Lemma conflicting_only_flags_refused_witness :
  parse_loop ([("--zip", "")] ++ ("--x64-only", "") :: [("-f", "")]
              ++ ("--arm64-only", "") :: [])%list initial_options
  <> Parsed (with_globals (set_ARM64ONLY true)
               (with_globals (set_FORCE_MK true)
                  (with_globals (set_X64ONLY true)
                     (with_globals (set_ZIP_BUILD_OUTPUTS true) initial_options)))).
Proof.
  apply (conflicting_only_flags_refused [("--zip", "")] [("-f", "")] []
           "--x64-only" "" "--arm64-only" "" initial_options).
  reflexivity.
Defined.

Lemma parse_option_switches (opt arg : string) (o o' : Options) :
  parse_option opt arg o = Parsed o' ->
  DOTNET_CORE_ENABLED (globals o')
  = DOTNET_CORE_ENABLED (globals o) && negb (String.eqb opt "--nodotnet") /\
  JAVA_ENABLED (globals o') = JAVA_ENABLED (globals o) && negb (String.eqb opt "--nojava") /\
  PYTHON_ENABLED (globals o')
  = PYTHON_ENABLED (globals o) && negb (String.eqb opt "--nopython") /\
  ZIP_BUILD_OUTPUTS (globals o') = ZIP_BUILD_OUTPUTS (globals o) || String.eqb opt "--zip" /\
  GIT_HASH (globals o') = GIT_HASH (globals o) || String.eqb opt "--githash" /\
  FORCE_MK (globals o') = FORCE_MK (globals o) || opt_in opt "-f" "--force" /\
  VERBOSE o' = VERBOSE o && negb (opt_in opt "-s" "--silent") /\
  path o' = (if opt_in opt "-b" "--build" then arg else path o) /\
  (path o <> "src" -> path o' <> "src").
Proof.
  intros H. parse_cases H; cbn;
    rewrite ?andb_true_r, ?andb_false_r, ?orb_false_r, ?orb_true_r; repeat split; auto.
  all: intros _ ->; discriminate.
Qed.

Lemma given_cons (name opt arg : string) (rest : list (string * string)) :
  given name ((opt, arg) :: rest) = String.eqb opt name || given name rest.
Proof. reflexivity. Qed.

Lemma parse_loop_switches (options : list (string * string)) : forall (o o' : Options),
  parse_loop options o = Parsed o' ->
  DOTNET_CORE_ENABLED (globals o')
  = DOTNET_CORE_ENABLED (globals o) && negb (given "--nodotnet" options) /\
  JAVA_ENABLED (globals o') = JAVA_ENABLED (globals o) && negb (given "--nojava" options) /\
  PYTHON_ENABLED (globals o')
  = PYTHON_ENABLED (globals o) && negb (given "--nopython" options) /\
  ZIP_BUILD_OUTPUTS (globals o') = ZIP_BUILD_OUTPUTS (globals o) || given "--zip" options /\
  GIT_HASH (globals o') = GIT_HASH (globals o) || given "--githash" options /\
  FORCE_MK (globals o')
  = FORCE_MK (globals o) || (given "-f" options || given "--force" options) /\
  VERBOSE o' = VERBOSE o && negb (given "-s" options || given "--silent" options) /\
  path o' = build_arg options (path o) /\
  (path o <> "src" -> path o' <> "src").
Proof.
  induction options as [|[opt arg] options IH]; intros o o' H; simpl in H.
  - injection H as <-. cbn. rewrite ?andb_true_r, ?orb_false_r. repeat split; auto.
  - destruct (parse_option opt arg o) as [o1| |] eqn:E; try discriminate.
    apply parse_option_switches in E as (E1 & E2 & E3 & E4 & E5 & E6 & E7 & E8 & E9).
    apply IH in H as (H1 & H2 & H3 & H4 & H5 & H6 & H7 & H8 & H9).
    assert (Hsrc : path o <> "src" -> path o' <> "src") by auto.
    rewrite !given_cons. cbn [build_arg]. unfold opt_in in *.
    rewrite H1, H2, H3, H4, H5, H6, H7, H8, E1, E2, E3, E4, E5, E6, E7, E8.
    rewrite H8, E8 in Hsrc.
    repeat split; try exact Hsrc; try reflexivity;
      repeat match goal with |- context [String.eqb ?a ?b] => destruct (String.eqb a b) end;
      repeat match goal with |- context [given ?a ?b] => destruct (given a b) end;
      repeat match goal with |- context [?f (globals o)] => destruct (f (globals o)) end;
      try destruct (VERBOSE o); reflexivity.
Qed.

(** X3. What an accepted command line leaves in the feature switches: a binding
    is enabled exactly when its [--no...] option is absent, archives and the
    revision are on exactly when [--zip], respectively [--githash], is given,
    reconfiguration is forced exactly when [-f] or [--force] is given, and
    messages are verbose exactly when neither [-s] nor [--silent] is given;
    how often and in which order the options appear makes no difference. *)
Theorem parsed_switches (options : list (string * string)) (o : Options) :
  parse_loop options initial_options = Parsed o ->
  DOTNET_CORE_ENABLED (globals o) = negb (given "--nodotnet" options) /\
  JAVA_ENABLED (globals o) = negb (given "--nojava" options) /\
  PYTHON_ENABLED (globals o) = negb (given "--nopython" options) /\
  ZIP_BUILD_OUTPUTS (globals o) = given "--zip" options /\
  GIT_HASH (globals o) = given "--githash" options /\
  FORCE_MK (globals o) = (given "-f" options || given "--force" options) /\
  VERBOSE o = negb (given "-s" options || given "--silent" options).
Proof.
  intros H. apply parse_loop_switches in H as (H1 & H2 & H3 & H4 & H5 & H6 & H7 & _).
  repeat split; assumption.
Qed.

Lemma parsed_switches_witness :
  exists o,
    parse_loop [("--nojava", ""); ("--zip", ""); ("-s", ""); ("--nojava", "")] initial_options
    = Parsed o /\
    DOTNET_CORE_ENABLED (globals o) = true /\ JAVA_ENABLED (globals o) = false /\
    ZIP_BUILD_OUTPUTS (globals o) = true /\ VERBOSE o = false.
Proof.
  eexists. split; [reflexivity |].
  match goal with |- context [VERBOSE ?v] =>
    destruct (parsed_switches
                [("--nojava", ""); ("--zip", ""); ("-s", ""); ("--nojava", "")] v eq_refl)
      as (H1 & H2 & _ & H4 & _ & _ & H7)
  end.
  repeat split; assumption.
Defined.

(** X4. The build directory an accepted command line leaves in [path] is the
    argument of the last [-b] or [--build], or [build-dist] when there is
    none, and it is never the name [src]: a command line that names [src]
    (even where a later [-b] names another directory) is refused. *)
Theorem parsed_build_path (options : list (string * string)) (o : Options) :
  parse_loop options initial_options = Parsed o ->
  path o = build_arg options "build-dist" /\
  path o <> "src" /\
  ~ In ("-b", "src") options /\ ~ In ("--build", "src") options.
Proof.
  intros H. pose proof (parse_loop_switches _ _ _ H) as (_ & _ & _ & _ & _ & _ & _ & H8 & H9).
  split; [exact H8 |]. split; [apply H9; discriminate |].
  assert (Hno : forall opt, opt = "-b" \/ opt = "--build" -> ~ In (opt, "src") options).
  { intros opt Hopt Hin. apply in_split in Hin as (l1 & l2 & ->).
    rewrite parse_loop_app in H.
    destruct (parse_loop l1 initial_options) as [o1| |]; try discriminate.
    simpl in H. unfold parse_option, opt_in in H.
    destruct Hopt as [-> | ->]; discriminate H. }
  split; apply Hno; auto.
Qed.

Lemma parsed_build_path_witness :
  exists o,
    parse_loop [("-b", "out"); ("--zip", ""); ("--build", "out2")] initial_options = Parsed o /\
    path o = "out2" /\ path o <> "src".
Proof.
  eexists. split; [reflexivity |].
  match goal with |- context [path ?v] =>
    destruct (parsed_build_path [("-b", "out"); ("--zip", ""); ("--build", "out2")] v eq_refl)
      as (H1 & H2 & _)
  end.
  split; [exact H1 | exact H2].
Defined.

(** * The registry *)

Lemma lookup_with_dirs_in (l : list string) (m : gmap string node) (k : string) :
  In k l -> foldr (fun a f => <[a := NDir]> f) m l !! k = Some NDir.
Proof.
  induction l as [|a l IH]; simpl; [intros [] |].
  intros [->|H]; [apply lookup_insert_eq |].
  destruct (decide (a = k)) as [->|Hne]; [apply lookup_insert_eq |].
  rewrite lookup_insert_ne by exact Hne. auto.
Qed.

Lemma lookup_with_dirs_some (l : list string) (m : gmap string node) (k : string) :
  is_Some (m !! k) -> is_Some (foldr (fun a f => <[a := NDir]> f) m l !! k).
Proof.
  intros H. induction l as [|a l IH]; simpl; [exact H |].
  destruct (decide (a = k)) as [->|Hne]; [rewrite lookup_insert_eq; eauto |].
  by rewrite lookup_insert_ne.
Qed.

Lemma exists_is_some (w : world) (p : string) :
  FS.exists_ w p = true <-> is_Some (fs w !! FS.resolve w p).
Proof.
  unfold FS.exists_. destruct (fs w !! FS.resolve w p); split; eauto; try discriminate.
  intros [x H]. discriminate H.
Qed.

(** [mk_dir], when it returns, leaves the directory in place, and removes
    nothing. *)
Lemma mk_dir_ok (d : string) (w w' : world) :
  mk_dir d w = Ok tt w' ->
  FS.exists_ w' d = true /\
  cwd w' = cwd w /\
  (forall q, FS.exists_ w q = true -> FS.exists_ w' q = true).
Proof.
  unfold mk_dir. rewrite bind_get. destruct (FS.exists_ w d) eqn:E; cbn [negb].
  - intros [= <-]. auto.
  - unfold FS.makedirs. rewrite bind_get, E.
    destruct (existsb _ _); [discriminate |].
    rewrite bind_unfold. cbn. intros [= <-]. split; [|split; [reflexivity |]].
    + apply exists_is_some. cbn. unfold FS.resolve. cbn.
      rewrite lookup_with_dirs_in; [eauto |]. apply in_or_app. right. left. reflexivity.
    + intros q Hq. apply exists_is_some in Hq. apply exists_is_some. cbn.
      by apply lookup_with_dirs_some.
Qed.

(** X5. After [set_build_dir], every architecture of the registry has its
    workspace path in place, the registry is the one the script's dict
    literal lists, and a second [set_build_dir] of the same path returns the
    same registry and changes nothing at all. *)
Theorem set_build_dir_ok (dir : string) (w w' : world) (archs : list (string * string)) :
  set_build_dir dir w = Ok archs w' ->
  archs = registry dir /\
  (forall arch d, In (arch, d) archs -> FS.exists_ w' d = true) /\
  set_build_dir dir w' = Ok archs w'.
Proof.
  unfold set_build_dir. cbv zeta. intros H.
  rewrite bind_unfold in H.
  destruct (mk_dir (Path.join dir "x86") w) as [[] w1|] eqn:E1; [|discriminate].
  rewrite bind_unfold in H.
  destruct (mk_dir (Path.join dir "x64") w1) as [[] w2|] eqn:E2; [|discriminate].
  rewrite bind_unfold in H.
  destruct (mk_dir (Path.join dir "arm64") w2) as [[] w3|] eqn:E3; [|discriminate].
  injection H as <- <-.
  apply mk_dir_ok in E1 as (X1 & _ & _).
  apply mk_dir_ok in E2 as (X2 & _ & K2).
  apply mk_dir_ok in E3 as (X3 & _ & K3).
  assert (H86 : FS.exists_ w3 (Path.join dir "x86") = true) by auto.
  assert (H64 : FS.exists_ w3 (Path.join dir "x64") = true) by auto.
  split; [reflexivity |]. split.
  - intros arch d [[= <- <-]|[[= <- <-]|[[= <- <-]|[]]]]; assumption.
  - rewrite bind_unfold, (mk_dir_exists _ _ H86), bind_unfold, (mk_dir_exists _ _ H64),
      bind_unfold, (mk_dir_exists _ _ X3). reflexivity.
Qed.

Lemma set_build_dir_ok_witness :
  let r := set_build_dir "out" (World ∅ "" [] []) in
  exists archs,
    r = Ok archs (result_world r) /\
    archs = registry "out" /\
    (forall arch d, In (arch, d) archs -> FS.exists_ (result_world r) d = true) /\
    set_build_dir "out" (result_world r) = Ok archs (result_world r).
Proof.
  intros r. exists (registry "out").
  assert (Hr : r = Ok (registry "out") (result_world r)) by (vm_compute; reflexivity).
  split; [exact Hr |].
  exact (set_build_dir_ok "out" (World ∅ "" [] []) (result_world r) (registry "out") Hr).
Defined.

(** * Environment variables *)

Lemma lstrip_spec (chars s : string) :
  exists pre,
    s = pre ++ lstrip chars s /\ all_in chars pre = true /\
    (lstrip chars s = "" \/
     exists c, first_char (lstrip chars s) = Some c /\ has_char c chars = false).
Proof.
  induction s as [|c s (pre & E & Hpre & Hfirst)]; simpl.
  - exists "". auto.
  - destruct (has_char c chars) eqn:Hc.
    + exists (String c pre). rewrite string_app_cons, <- E. simpl. rewrite Hc, Hpre. auto.
    + exists "". split; [reflexivity |]. split; [reflexivity |]. right. exists c. auto.
Qed.

Lemma rstrip_spec (chars s : string) :
  exists post,
    s = rstrip chars s ++ post /\ all_in chars post = true /\
    (rstrip chars s = "" \/
     exists c, Str.last_char (rstrip chars s) = Some c /\ has_char c chars = false).
Proof.
  induction s as [|c s (post & E & Hpost & Hlast)]; simpl.
  - exists "". auto.
  - destruct (rstrip chars s) as [|d r] eqn:Er.
    + destruct (has_char c chars) eqn:Hc.
      * exists (String c post). rewrite string_app_nil_l in *. subst post.
        simpl. rewrite Hc, Hpost. auto.
      * exists post. rewrite string_app_nil_l in E. subst post.
        rewrite string_app_cons, string_app_nil_l.
        split; [reflexivity |]. split; [exact Hpost |]. right. exists c. auto.
    + exists post. rewrite string_app_cons, <- E. split; [reflexivity |].
      split; [exact Hpost |]. right. destruct Hlast as [Hl|Hl]; [discriminate |]. exact Hl.
Qed.

Lemma last_char_app (pre t : string) :
  t <> "" -> Str.last_char (pre ++ t) = Str.last_char t.
Proof.
  intros Ht. induction pre as [|c pre IH]; [reflexivity |].
  rewrite string_app_cons. simpl. rewrite IH.
  destruct (pre ++ t) eqn:E; [|reflexivity].
  apply string_app_eq_nil in E as [_ ->]. contradiction.
Qed.

(** X6. [getenv] gives the default when the variable is not set; otherwise it
    gives the value with the longest runs of blanks, double quotes and single
    quotes taken off both ends: what is cut off consists of such characters
    only, and what is left is empty or begins and ends with another
    character. *)
Theorem getenv_stripped (env : Env) (name default : string) :
  match environ env name with
  | None => getenv env name default = default
  | Some v =>
      exists pre post,
        v = pre ++ getenv env name default ++ post /\
        all_in getenv_chars pre = true /\ all_in getenv_chars post = true /\
        (getenv env name default = "" \/
         exists a b,
           first_char (getenv env name default) = Some a /\
           Str.last_char (getenv env name default) = Some b /\
           has_char a getenv_chars = false /\ has_char b getenv_chars = false)
  end.
Proof.
  unfold getenv. destruct (environ env name) as [v|]; [|reflexivity].
  unfold strip.
  destruct (rstrip_spec getenv_chars v) as (post & Ev & Hpost & Hlast).
  destruct (lstrip_spec getenv_chars (rstrip getenv_chars v)) as (pre & Er & Hpre & Hfirst).
  exists pre, post. split; [|split; [exact Hpre | split; [exact Hpost |]]].
  - rewrite <- string_app_assoc, <- Er. exact Ev.
  - destruct Hfirst as [H0|(a & Ha & Hna)]; [auto |]. right.
    destruct Hlast as [H0|(b & Hb & Hnb)].
    + rewrite H0 in Ha. discriminate Ha.
    + exists a, b. split; [exact Ha |]. split; [|auto].
      rewrite Er in Hb. rewrite last_char_app in Hb; [exact Hb |].
      intros H0. rewrite H0 in Ha. discriminate Ha.
Qed.

(** * Splitting, and the hash [get_git_hash] returns *)

Lemma split_not_nil (sep : ascii) (s : string) : Str.split sep s <> [].
Proof.
  destruct s as [|c s]; simpl; [discriminate |].
  destruct (Ascii.eqb c sep); [discriminate |]. destruct (Str.split sep s); discriminate.
Qed.

Lemma concat_cons (sep x : string) (l : list string) :
  l <> [] -> String.concat sep (x :: l) = x ++ sep ++ String.concat sep l.
Proof. destruct l; [contradiction | reflexivity]. Qed.

(** [sep.join(s.split(sep)) == s], and no piece contains the separator. *)
Lemma split_spec (sep : ascii) (s : string) :
  String.concat (String sep "") (Str.split sep s) = s /\
  Forall (fun piece => has_char sep piece = false) (Str.split sep s).
Proof.
  induction s as [|c s [IH1 IH2]]; simpl.
  - split; [reflexivity | repeat constructor].
  - pose proof (split_not_nil sep s) as Hne.
    destruct (Ascii.eqb_spec c sep) as [->|Hc].
    + split; [|constructor; [reflexivity | exact IH2]].
      rewrite concat_cons; [|exact Hne]. rewrite IH1. reflexivity.
    + destruct (Str.split sep s) as [|w ws]; [contradiction |].
      apply Forall_cons in IH2 as [Hw Hws]. split.
      * destruct ws as [|w' ws]; [simpl in *; by rewrite IH1 |].
        rewrite concat_cons; [|discriminate]. rewrite concat_cons in IH1; [|discriminate].
        rewrite string_app_cons. by rewrite IH1.
      * constructor; [|exact Hws]. simpl. rewrite Hw.
        apply Ascii.eqb_neq in Hc. by rewrite Hc.
Qed.

Lemma split_no_sep (sep : ascii) (s : string) :
  has_char sep s = false -> Str.split sep s = [s].
Proof.
  induction s as [|c s IH]; simpl; [reflexivity |].
  intros H. apply orb_false_iff in H as [Hc Hs]. rewrite Hc, (IH Hs). reflexivity.
Qed.

Lemma split_app_sep (sep : ascii) (a b : string) :
  has_char sep a = false -> Str.split sep (a ++ String sep b) = a :: Str.split sep b.
Proof.
  induction a as [|c a IH]; intros H.
  - rewrite string_app_nil_l. simpl. by rewrite Ascii.eqb_refl.
  - simpl in H. apply orb_false_iff in H as [Hc Ha].
    rewrite string_app_cons. simpl. rewrite Hc, (IH Ha). reflexivity.
Qed.

(** A string splits in two exactly when it is two separator-free pieces
    with one separator between. *)
Lemma split_two (sep : ascii) (r h ref : string) :
  Str.split sep r = [h; ref] <->
  r = h ++ String sep ref /\ has_char sep h = false /\ has_char sep ref = false.
Proof.
  split.
  - intros H. destruct (split_spec sep r) as [E F]. rewrite H in E, F.
    apply Forall_cons in F as [Hh F']. apply Forall_cons in F' as [Hr _].
    simpl in E. auto.
  - intros (-> & Hh & Hr). by rewrite (split_app_sep _ _ _ Hh), (split_no_sep _ _ Hr).
Qed.

(** X7. [get_git_hash] returns a hash exactly when both git queries can be run
    and what [show-ref] prints, without the end of line, is a hash and a ref
    name with one blank between and no other blank; the hash returned is the
    part before the blank, and the only effect is the two queries. *)
Theorem git_hash_returned (env : Env) (w w' : world) (h : string) :
  get_git_hash env w = Ok h w' <->
  exists out1 out2 ref,
    proc env ["git"; "rev-parse"; "--abbrev-ref"; "HEAD"] = Some out1 /\
    proc env ["git"; "show-ref"; "--abbrev=12"; "refs/heads/" ++ Str.rstrip_crlf out1]
    = Some out2 /\
    Str.rstrip_crlf out2 = h ++ " " ++ ref /\
    has_char " "%char h = false /\ has_char " "%char ref = false /\
    w' = add_events w
           [EvPopen ["git"; "rev-parse"; "--abbrev-ref"; "HEAD"];
            EvPopen ["git"; "show-ref"; "--abbrev=12";
                     "refs/heads/" ++ Str.rstrip_crlf out1]].
Proof.
  rewrite get_git_hash_ok. unfold resolved_hash, git_query.
  destruct (proc env ["git"; "rev-parse"; "--abbrev-ref"; "HEAD"]) as [out1|].
  2: { split; [intros [? _]; discriminate | intros (? & ? & ? & ? & _); discriminate]. }
  destruct (proc env ["git"; "show-ref"; "--abbrev=12"; "refs/heads/" ++ Str.rstrip_crlf out1])
    as [out2|] eqn:E2.
  2: { split; [intros [? _]; discriminate |].
       intros (o1 & o2 & ref & [= <-] & H2 & _). rewrite E2 in H2. discriminate. }
  cbn [fst snd]. split.
  - intros [Hh ->].
    destruct (Str.split " "%char (Str.rstrip_crlf out2)) as [|a [|b [|c l]]] eqn:Es;
      try discriminate Hh.
    simpl in Hh. injection Hh as <-. apply split_two in Es as (Er & Ha & Hb).
    exists out1, out2, b. repeat split; auto.
  - intros (o1 & o2 & ref & [= <-] & H2 & Er & Hh & Href & ->).
    rewrite E2 in H2. injection H2 as <-.
    assert (Es : Str.split " "%char (Str.rstrip_crlf out2) = [h; ref])
      by (apply split_two; auto).
    rewrite Es. auto.
Qed.

(** * More on the executor and the stages *)

Section MoreStages.

Variable env : Env.
Variable cfg : Config.

(** X8. The transient script is never removed: the script calls [os.erase],
    which does not exist, and swallows the error.  After [exec_cmds] the
    script is still in place with the text of the session, as long as the
    session itself leaves the file alone. *)
Theorem script_left_behind (cmds : list string) (w : world) :
  FS.isdir w "z3_tmp.cmd" = false ->
  (forall text f status f',
     shell env text f = Some (status, f') ->
     f' !! FS.resolve w "z3_tmp.cmd" = f !! FS.resolve w "z3_tmp.cmd") ->
  exists status w',
    exec_cmds env cmds w = Ok status w' /\
    fs w' !! FS.resolve w "z3_tmp.cmd" = Some (NFile (script_text cmds)).
Proof.
  intros Hd Hkeep. rewrite (exec_cmds_eq env cmds w Hd). cbv zeta.
  destruct (shell env (script_text cmds) _) as [[st f']|] eqn:Es.
  - eexists _, _. split; [reflexivity |]. cbn [fs].
    rewrite (Hkeep _ _ _ _ Es). apply lookup_insert_eq.
  - eexists _, _. split; [reflexivity |]. cbn [fs]. apply lookup_insert_eq.
Qed.

(** X9. [mk_z3] ends by the status of the install session: it returns on
    status 0 and raises "Failed to make z3" on any other status, and also
    when the session could not be started. *)
Theorem mk_z3_outcome (arch build_dir : string) (w : world) :
  assoc arch (ARCHS cfg) = Some build_dir ->
  FS.isdir w "z3_tmp.cmd" = false ->
  outcome (mk_z3 env cfg arch w) =
  session_outcome "Failed to make z3"
    (shell env (script_text (install_cmds arch build_dir))
       (<[FS.resolve w "z3_tmp.cmd" := NFile (script_text (install_cmds arch build_dir))]>
          (fs w))).
Proof.
  intros Ha Hd. unfold mk_z3, get_build_dir, subscript.
  rewrite bind_enter, Ha, bind_ret, bind_unfold.
  set (w1 := World (fs w) (cwd w) (trace w) (calls w ++ [(Install, arch)])).
  rewrite (exec_cmds_eq env _ w1 Hd). cbv zeta.
  change (FS.resolve w1 "z3_tmp.cmd") with (FS.resolve w "z3_tmp.cmd").
  change (fs w1) with (fs w).
  destruct (shell env _ _) as [[st f']|]; [|reflexivity].
  cbn [session_outcome]. destruct (st =? 0)%Z; reflexivity.
Qed.

(** X10. Where [mk_build_dir] has to configure (the workspace is not configured,
    or [--force] is given, even on a configured workspace) and no revision
    is included, it runs the configure session over the three commands
    [cd], [vcvarsall] and [cmake], and ends by its status: it returns on
    status 0 and raises "failed to run commands" otherwise. *)
Theorem mk_build_dir_configures (arch build_path : string) (w : world) :
  assoc arch (ARCHS cfg) = Some build_path ->
  check_build_dir w build_path = false \/ FORCE_MK cfg = true ->
  FS.exists_ w build_path = true ->
  GIT_HASH cfg = false ->
  FS.isdir w "z3_tmp.cmd" = false ->
  let text := script_text (plain_configure_cmds cfg arch build_path) in
  let session := shell env text (<[FS.resolve w "z3_tmp.cmd" := NFile text]> (fs w)) in
  outcome (mk_build_dir env cfg arch w) = session_outcome "failed to run commands" session /\
  List.filter is_call (trace (result_world (mk_build_dir env cfg arch w))) =
  (List.filter is_call (trace w)
   ++ match session with Some _ => [EvCall "z3_tmp.cmd" text] | None => [] end)%list.
Proof.
  intros Ha Hcond Hex Hgit Hd text session.
  unfold mk_build_dir, subscript.
  rewrite bind_enter, Ha, bind_ret, bind_get.
  set (w1 := World (fs w) (cwd w) (trace w) (calls w ++ [(Configure, arch)])).
  change (check_build_dir w1 build_path) with (check_build_dir w build_path).
  replace (negb (check_build_dir w build_path) || FORCE_MK cfg) with true
    by (destruct Hcond as [-> | ->]; [reflexivity | by rewrite orb_true_r]).
  rewrite bind_unfold, (mk_dir_exists build_path w1 Hex).
  unfold configure_cmds. rewrite bind_assoc, bind_unfold, cmake_cmd_eq, Hgit, bind_ret,
    bind_unfold.
  match goal with |- context [exec_cmds env ?c] =>
    change c with (plain_configure_cmds cfg arch build_path)
  end.
  rewrite (exec_cmds_eq env _ w1 Hd). cbv zeta.
  change (FS.resolve w1 "z3_tmp.cmd") with (FS.resolve w "z3_tmp.cmd").
  change (fs w1) with (fs w). fold text. fold session.
  destruct session as [[st f']|]; cbn [session_outcome].
  - destruct (st =? 0)%Z;
      lazy beta iota zeta delta [negb raise mret M_ret outcome result_world trace];
      rewrite !List.filter_app; cbn [List.filter is_call app];
      rewrite filter_call_writes, ?app_nil_r; auto.
  - lazy beta iota zeta delta [negb raise mret M_ret outcome result_world trace Z.eqb].
    rewrite !List.filter_app. cbn [List.filter is_call app].
    rewrite filter_call_writes, ?app_nil_r. auto.
Qed.

(** X11. [mk_zip] writes no entry to any archive (the walk it would write from
    names a variable that is bound nowhere, and the error is swallowed), and
    it always leaves the working directory where it was, whether it returns
    or raises. *)
Theorem mk_zip_writes_nothing (arch : string) (w : world) :
  cwd (result_world (mk_zip env cfg arch w)) = cwd w /\
  forall archive entry,
    In (EvZipWrite archive entry) (trace (result_world (mk_zip env cfg arch w))) ->
    In (EvZipWrite archive entry) (trace w).
Proof.
  rewrite mk_zip_eq. cbv zeta.
  destruct (assoc arch (ARCHS cfg)) as [build_dir|]; [|split; auto].
  set (w1 := World (fs w) (cwd w) (trace w) (calls w ++ [(Archive, arch)])).
  pose proof (get_z3_name_not_pack env cfg arch w1) as (evs1 & Htr1 & Hall1).
  assert (Hno1 : forall archive entry, ~ In (EvZipWrite archive entry) evs1).
  { intros archive entry Hin. rewrite forallb_forall in Hall1.
    specialize (Hall1 _ Hin). discriminate. }
  assert (Hcwd : cwd (result_world (get_z3_name env cfg arch w1)) = cwd w).
  { rewrite get_z3_name_eq. destruct (GIT_HASH cfg); [|reflexivity].
    rewrite get_git_hash_eq. destruct (snd (git_query env)); [|reflexivity].
    destruct (negb _); reflexivity. }
  destruct (get_z3_name env cfg arch w1) as [name w2|e w2]; cbn [result_world] in *.
  - split.
    + unfold zip_outcome. destruct (FS.isdir w2 _); [|exact Hcwd].
      match goal with |- context [if ?b then _ else _] => destruct b end; exact Hcwd.
    + intros archive entry Hin.
      destruct (zip_outcome_trace (Path.join build_dir DIST_DIR) (name ++ ".zip") w2)
        as (evs2 & Htr2 & Hpack).
      rewrite Htr2, Htr1 in Hin.
      apply in_app_or in Hin as [Hin|Hin];
        [apply in_app_or in Hin as [Hin|Hin]; [exact Hin | by apply Hno1 in Hin] |].
      apply (in_filter_pack (EvZipWrite archive entry) evs2 eq_refl) in Hin.
      destruct Hpack as [Hp|Hp]; rewrite Hp in Hin; [contradiction |].
      destruct Hin as [Hin|[]]. discriminate Hin.
  - split; [exact Hcwd |]. intros archive entry Hin. rewrite Htr1 in Hin.
    apply in_app_or in Hin as [Hin|Hin]; [exact Hin | by apply Hno1 in Hin].
Qed.

(** X12. [mk_zip] never fails on the archive: for a registered architecture
    whose distribution name can be formed, it returns normally, whether or
    not the install tree exists and the archive can be opened. *)
Theorem mk_zip_returns (arch build_dir : string) (w : world) :
  assoc arch (ARCHS cfg) = Some build_dir ->
  GIT_HASH cfg = false \/ is_Some (resolved_hash env) ->
  outcome (mk_zip env cfg arch w) = None.
Proof.
  intros Ha Hname. rewrite mk_zip_eq. cbv zeta. rewrite Ha, get_z3_name_eq.
  destruct (GIT_HASH cfg); [|reflexivity].
  destruct Hname as [Hf|[h Hh]]; [discriminate |].
  match goal with |- context [get_git_hash env ?v] =>
    rewrite (proj2 (get_git_hash_ok env v _ h) (conj Hh eq_refl))
  end. reflexivity.
Qed.

(** X13. An architecture that is not in the registry is refused at once:
    [build_for_arch] raises [KeyError] in [mk_build_dir], before anything
    is created, queried, written or run; [mk_z3] and [mk_zip] do the same. *)
Theorem unknown_arch_refused (arch : string) (w : world) :
  assoc arch (ARCHS cfg) = None ->
  exists w',
    build_for_arch env cfg arch w = Raise (KeyError arch) w' /\
    fs w' = fs w /\ cwd w' = cwd w /\ trace w' = trace w /\
    outcome (mk_z3 env cfg arch w) = Some (KeyError arch) /\
    outcome (mk_zip env cfg arch w) = Some (KeyError arch).
Proof.
  intros Ha. eexists. split; [|split; [|split; [|split; [|split]]]].
  - unfold build_for_arch. rewrite bind_unfold.
    unfold mk_build_dir, subscript. rewrite bind_enter, Ha. reflexivity.
  - reflexivity.
  - reflexivity.
  - reflexivity.
  - unfold mk_z3, get_build_dir, subscript. rewrite bind_enter, Ha. reflexivity.
  - rewrite mk_zip_eq. cbv zeta. rewrite Ha. reflexivity.
Qed.

End MoreStages.

Lemma script_left_behind_witness :
  let w := World ∅ "" [] [] in
  exists status w',
    exec_cmds Sample.env_ok ["cd build-dist\x64"; "nmake install"] w = Ok status w' /\
    fs w' !! FS.resolve w "z3_tmp.cmd"
    = Some (NFile (script_text ["cd build-dist\x64"; "nmake install"])).
Proof.
  intros w.
  apply (script_left_behind Sample.env_ok ["cd build-dist\x64"; "nmake install"] w).
  - reflexivity.
  - intros text f status f' H. injection H as _ <-. reflexivity.
Defined.

Lemma mk_z3_outcome_witness :
  outcome (mk_z3 Sample.env_fail Sample.cfg_plain "x64" (World ∅ "" [] []))
  = Some (MKException "Failed to make z3").
Proof.
  assert (Hd : FS.isdir (World ∅ "" [] []) "z3_tmp.cmd" = false) by reflexivity.
  rewrite (mk_z3_outcome Sample.env_fail Sample.cfg_plain "x64" "build-dist\x64"
             (World ∅ "" [] []) eq_refl Hd).
  reflexivity.
Defined.

Lemma mk_build_dir_configures_witness :
  let w := Sample.start Sample.fs_x64 in
  let text := script_text (plain_configure_cmds Sample.cfg_plain "x86" "build-dist\x86") in
  let session :=
    shell Sample.env_ok text (<[FS.resolve w "z3_tmp.cmd" := NFile text]> (fs w)) in
  outcome (mk_build_dir Sample.env_ok Sample.cfg_plain "x86" w)
  = session_outcome "failed to run commands" session /\
  List.filter is_call (trace (result_world (mk_build_dir Sample.env_ok Sample.cfg_plain "x86" w)))
  = (List.filter is_call (trace w)
     ++ match session with Some _ => [EvCall "z3_tmp.cmd" text] | None => [] end)%list.
Proof.
  intros w.
  assert (H1 : check_build_dir w "build-dist\x86" = false) by (vm_compute; reflexivity).
  assert (H2 : FS.exists_ w "build-dist\x86" = true) by (vm_compute; reflexivity).
  assert (H3 : FS.isdir w "z3_tmp.cmd" = false) by (vm_compute; reflexivity).
  exact (mk_build_dir_configures Sample.env_ok Sample.cfg_plain "x86" "build-dist\x86" w
           eq_refl (or_introl H1) H2 eq_refl H3).
Defined.

Lemma mk_zip_returns_witness :
  outcome (mk_zip Sample.env_ok Sample.cfg_githash "x64" (World ∅ "" [] [])) = None.
Proof.
  apply (mk_zip_returns Sample.env_ok Sample.cfg_githash "x64" "build-dist\x64").
  - reflexivity.
  - right. vm_compute. eauto.
Defined.

Lemma unknown_arch_refused_witness :
  exists w',
    build_for_arch Sample.env_ok Sample.cfg_plain "mips" (World ∅ "" [] [])
    = Raise (KeyError "mips") w' /\
    fs w' = ∅ /\ cwd w' = "" /\ trace w' = [] /\
    outcome (mk_z3 Sample.env_ok Sample.cfg_plain "mips" (World ∅ "" [] []))
    = Some (KeyError "mips") /\
    outcome (mk_zip Sample.env_ok Sample.cfg_plain "mips" (World ∅ "" [] []))
    = Some (KeyError "mips").
Proof.
  apply (unknown_arch_refused Sample.env_ok Sample.cfg_plain "mips" (World ∅ "" [] [])).
  reflexivity.
Defined.

(** * The orchestrator: one architecture *)

Section SingleScope.

Variable env : Env.
Variable cfg : Config.

Lemma build_for_arch_calls (arch : string) (w w' : world) :
  build_for_arch env cfg arch w = Ok tt w' ->
  calls w' =
  (calls w ++ [(Configure, arch); (Install, arch); (License, arch); (Runtime, arch)]
   ++ (if ZIP_BUILD_OUTPUTS cfg then [(Archive, arch)] else []))%list.
Proof.
  unfold build_for_arch. intros H.
  rewrite bind_unfold in H. pose proof (mk_build_dir_calls env cfg arch w) as C1.
  destruct (mk_build_dir env cfg arch w) as [[] w1|]; [|discriminate]. simpl in C1.
  rewrite bind_unfold in H. pose proof (mk_z3_calls env cfg arch w1) as C2.
  destruct (mk_z3 env cfg arch w1) as [[] w2|]; [|discriminate]. simpl in C2.
  rewrite bind_unfold in H. pose proof (cp_license_calls env cfg arch w2) as C3.
  destruct (cp_license env cfg arch w2) as [[] w3|]; [|discriminate]. simpl in C3.
  rewrite bind_unfold in H. pose proof (cp_vs_runtime_calls env cfg arch w3) as C4.
  destruct (cp_vs_runtime env cfg arch w3) as [[] w4|]; [|discriminate]. simpl in C4.
  destruct (ZIP_BUILD_OUTPUTS cfg).
  - pose proof (mk_zip_calls env cfg arch w4) as C5. rewrite H in C5. simpl in C5.
    rewrite C5, C4, C3, C2, C1, <- !app_assoc. reflexivity.
  - injection H as <-. rewrite C4, C3, C2, C1, <- !app_assoc. reflexivity.
Qed.

(** X18. With an only-flag set, [main] runs the pipeline of one architecture,
    its stages back to back in the order configure, install, license,
    runtime files and (with [--zip]) archive, and nothing for any other
    architecture.  The architecture is chosen by the order of the tests in
    [main]: x86 if [X86ONLY] is set, whatever else is set, then x64, then
    arm64. *)
Theorem main_single_scope (arch : string) (w w' : world) :
  single_scope cfg = Some arch ->
  main env cfg w = Ok tt w' ->
  calls w' =
  (calls w ++ [(Configure, arch); (Install, arch); (License, arch); (Runtime, arch)]
   ++ (if ZIP_BUILD_OUTPUTS cfg then [(Archive, arch)] else []))%list.
Proof.
  intros Hs H. unfold main in H.
  destruct (negb (String.eqb (os_name env) "nt")); [discriminate |].
  rewrite bind_unfold in H. pose proof (check_vc_cmd_prompt_calls env w) as C0.
  destruct (check_vc_cmd_prompt env w) as [[] w0|]; [|discriminate]. simpl in C0.
  rewrite <- C0. unfold single_scope in Hs.
  destruct (X86ONLY cfg); [injection Hs as <-; by apply build_for_arch_calls |].
  destruct (X64ONLY cfg); [injection Hs as <-; by apply build_for_arch_calls |].
  destruct (ARM64ONLY cfg); [injection Hs as <-; by apply build_for_arch_calls |].
  discriminate.
Qed.

End SingleScope.

Lemma main_single_scope_witness :
  let w := Sample.start Sample.fs_all in
  let r := main Sample.env_ok SampleScope.cfg_x86_arm64 w in
  outcome r = None /\
  calls (result_world r) =
  (calls w ++ [(Configure, "x86"); (Install, "x86"); (License, "x86"); (Runtime, "x86")]
   ++ (if ZIP_BUILD_OUTPUTS SampleScope.cfg_x86_arm64 then [(Archive, "x86")] else []))%list.
Proof.
  intros w r. assert (Hok : outcome r = None) by (vm_compute; reflexivity).
  split; [exact Hok |].
  exact (main_single_scope Sample.env_ok SampleScope.cfg_x86_arm64 "x86" w (result_world r)
           eq_refl (ok_result_world r Hok)).
Defined.

(** * The guards of the entry point *)

Lemma set_build_dir_makedirs (path : string) :
  respects (adds_only is_makedirs) (set_build_dir path).
Proof. unfold set_build_dir. unfold_prims. frame. Qed.

Lemma set_build_dir_cwd (path : string) : respects same_cwd (set_build_dir path).
Proof. unfold set_build_dir. unfold_prims. frame. Qed.

(** On Windows, once [parse_options] has returned, the rest of the script is
    [main] on the globals that it has set. *)
Lemma main_script_parsed (env : Env) (options : list (string * string)) (o : Options)
    (w w1 : world) :
  os_name env = "nt" ->
  parse_options options w = (Parsed o, w1) ->
  main_script env options w = Finished (main env (globals o) w1).
Proof.
  intros Hos Hp. unfold main_script, main. rewrite Hos, Hp. reflexivity.
Qed.

(** X19. The guards of [main].  Off Windows the script raises at once, before
    it looks at the command line, and leaves the world as it found it.  On
    Windows, where the compiler [cl] cannot be started, a command line that
    [parse_options] accepts ends in an [MKException] as well, once
    [parse_options] has made the workspace directories and before anything
    else is done: nothing but directories made has been added to the trace,
    and the working directory is as it was. *)
Theorem main_guards (env : Env) (options : list (string * string)) (w : world) :
  (os_name env <> "nt" ->
   main_script env options w
   = Finished (Raise (MKException "This script is for Windows only") w)) /\
  (os_name env = "nt" -> proc env ["cl"] = None ->
   forall o w1, parse_options options w = (Parsed o, w1) ->
     main_script env options w
     = Finished (Raise (MKException
         "You must execute the mk_win_dist.py script on a Visual Studio Command Prompt") w1) /\
     adds_only is_makedirs w w1 /\
     cwd w1 = cwd w).
Proof.
  split.
  - intros Hos. unfold main_script.
    destruct (String.eqb_spec (os_name env) "nt") as [E|E]; [contradiction | reflexivity].
  - intros Hos Hcl o w1 Hp. split; [|split].
    + unfold main_script. rewrite Hos, Hp. cbn [String.eqb Ascii.eqb Bool.eqb negb].
      cbv zeta. rewrite bind_unfold. unfold check_vc_cmd_prompt, try_except.
      rewrite Hcl. reflexivity.
    + unfold parse_options in Hp.
      destruct (parse_loop options initial_options) as [o'| |]; try discriminate Hp.
      pose proof (set_build_dir_makedirs (path o') w) as Hfr.
      destruct (set_build_dir (path o') w) as [archs w'|e w']; [|discriminate Hp].
      injection Hp as _ <-. exact Hfr.
    + unfold parse_options in Hp.
      destruct (parse_loop options initial_options) as [o'| |]; try discriminate Hp.
      pose proof (set_build_dir_cwd (path o') w) as Hfr.
      destruct (set_build_dir (path o') w) as [archs w'|e w']; [|discriminate Hp].
      injection Hp as _ <-. exact Hfr.
Qed.

Lemma main_guards_witness :
  let w := World ∅ "" [] [] in
  let options := [("--x64-only", "")] in
  let w1 := snd (parse_options options w) in
  main_script SampleScope.env_posix options w
  = Finished (Raise (MKException "This script is for Windows only") w) /\
  (main_script SampleGuards.env_no_cl options w
   = Finished (Raise (MKException
       "You must execute the mk_win_dist.py script on a Visual Studio Command Prompt") w1) /\
   adds_only is_makedirs w w1 /\
   cwd w1 = cwd w) /\
  trace w1 = [EvMakedirs "build-dist\x86"; EvMakedirs "build-dist\x64";
              EvMakedirs "build-dist\arm64"].
Proof.
  intros w options w1.
  assert (Hfst : match fst (parse_options options w) with Parsed _ => True | _ => False end)
    by (vm_compute; exact I).
  assert (Htr : trace w1 = [EvMakedirs "build-dist\x86"; EvMakedirs "build-dist\x64";
                            EvMakedirs "build-dist\arm64"]) by (vm_compute; reflexivity).
  assert (Hnt : "posix" <> "nt") by discriminate.
  split; [exact (proj1 (main_guards SampleScope.env_posix options w) Hnt) |].
  split; [|exact Htr].
  subst w1. destruct (parse_options options w) as [[o|e|c] w1] eqn:Hp;
    [|destruct Hfst | destruct Hfst].
  exact (proj2 (main_guards SampleGuards.env_no_cl options w) eq_refl eq_refl o w1 Hp).
Defined.

(** * Distribution names *)

Lemma string_app_inv_head (a b c : string) : a ++ b = a ++ c -> b = c.
Proof.
  induction a as [|x a IH]; [auto |]. rewrite !string_app_cons. intros [= H]. auto.
Qed.

Lemma string_length_app (a b : string) :
  String.length (a ++ b) = (String.length a + String.length b)%nat.
Proof.
  induction a as [|x a IH]; [reflexivity |]. rewrite string_app_cons. simpl. by rewrite IH.
Qed.

Lemma string_app_inv_tail (a b s : string) : a ++ s = b ++ s -> a = b.
Proof.
  revert b. induction a as [|x a IH]; intros [|y b] H.
  - reflexivity.
  - apply (f_equal String.length) in H. rewrite string_app_nil_l, string_app_cons in H.
    simpl in H. rewrite string_length_app in H. lia.
  - apply (f_equal String.length) in H. rewrite string_app_nil_l, string_app_cons in H.
    simpl in H. rewrite string_length_app in H. lia.
  - rewrite !string_app_cons in H. injection H as -> H. by rewrite (IH _ H).
Qed.

(** X20. In one run, different architectures get different distribution
    names: whenever [get_z3_name] returns for two different architectures,
    the two names differ, and so do the places the license is copied to and
    the names of the archives. *)
Theorem dist_names_distinct (env : Env) (cfg : Config) (a1 a2 n1 n2 : string)
    (w1 w2 w1' w2' : world) :
  get_z3_name env cfg a1 w1 = Ok n1 w1' ->
  get_z3_name env cfg a2 w2 = Ok n2 w2' ->
  a1 <> a2 ->
  n1 <> n2 /\
  Path.join DIST_DIR n1 <> Path.join DIST_DIR n2 /\
  n1 ++ ".zip" <> n2 ++ ".zip".
Proof.
  intros H1 H2 Hne.
  apply get_z3_name_ok in H1 as [-> _]. apply get_z3_name_ok in H2 as [-> _].
  assert (Hn : z3_name env cfg a1 <> z3_name env cfg a2).
  { unfold z3_name, dist_name. intros H. apply Hne.
    repeat apply string_app_inv_head in H.
    by apply string_app_inv_tail in H. }
  split; [exact Hn |]. split.
  - assert (Hj : forall a, Path.join DIST_DIR (z3_name env cfg a)
                           = "dist\" ++ z3_name env cfg a) by (intros a; reflexivity).
    rewrite !Hj. intros H. by apply string_app_inv_head in H.
  - intros H. by apply string_app_inv_tail in H.
Qed.

Lemma dist_names_distinct_witness :
  "z3-4.0123456789ab-x64-win" <> "z3-4.0123456789ab-x86-win" /\
  Path.join DIST_DIR "z3-4.0123456789ab-x64-win"
  <> Path.join DIST_DIR "z3-4.0123456789ab-x86-win" /\
  "z3-4.0123456789ab-x64-win" ++ ".zip" <> "z3-4.0123456789ab-x86-win" ++ ".zip".
Proof.
  pose (w := World ∅ "" [] []).
  pose (w' := result_world (get_z3_name Sample.env_ok Sample.cfg_githash "x64" w)).
  assert (H1 : get_z3_name Sample.env_ok Sample.cfg_githash "x64" w
               = Ok "z3-4.0123456789ab-x64-win" w') by (vm_compute; reflexivity).
  assert (H2 : get_z3_name Sample.env_ok Sample.cfg_githash "x86" w
               = Ok "z3-4.0123456789ab-x86-win" w') by (vm_compute; reflexivity).
  assert (Hne : "x64" <> "x86") by discriminate.
  exact (dist_names_distinct Sample.env_ok Sample.cfg_githash "x64" "x86" _ _ w w w' w'
           H1 H2 Hne).
Defined.
